(** * Claude usage monitor: burn rate, token limit, reset time, prediction

    A shallow embedding of the metric code of [src/monitor.ts] and of what
    its polling loop does with it.

    Numbers.  A JavaScript [number] that holds a token count or a
    [Date] time value is an integer here ([Z], milliseconds since the
    epoch for time values); the results of [/] are exact rationals ([Q]);
    a [Date] built from such a result is a [DateValue], invalid beyond
    the range of [Date].  Rounding of doubles is outside this model.

    Local time.  [DateTime] has the date arithmetic for a zone at a fixed
    offset from UTC, in which the polling loop is run here; [Zoned] has
    it for any zone, with clock changes, and [getNextResetTime] again
    over it.

    Objects.  The table of limits is a finite map of its own keys
    ([limits]); [limitsGet] adds what the object inherits.

    Optional fields.  [startTime] and [actualEndTime] hold the time value
    that [new Date(str)] gives for the field; [None] stands for a field
    that is absent or the empty string, the two values the code's [!str]
    tests accept.  [isGap] and [isActive] are optional booleans, tested for
    truthiness as the code does. *)

From Stdlib Require Import ZArith QArith Qround List Bool Lia String.
From Stdlib Require Import Ascii DecimalString.
From stdpp Require Import gmap strings.
Import ListNotations.

Local Open Scope Z_scope.

(** ** JavaScript helpers *)

Module JS.

(** Truthiness of an optional boolean field: [undefined] is falsy. *)
Definition truthy (o : option bool) : bool :=
  match o with
  | Some true => true
  | _ => false
  end.

(** [x || 0] on a number. *)
Definition or0 (x : Z) : Z := if x =? 0 then 0 else x.

(** [x < y] on rationals, as a boolean. *)
Definition Qltb (x y : Q) : bool := negb (Qle_bool y x).

(** A [Date] object: one with a time value, or the Invalid Date, whose
    time value is [NaN]. *)
Inductive DateValue : Type :=
| TimeValue (t : Z)
| InvalidDate.

(** [new Date(v)] for a number [v], by [TimeClip]: beyond 8.64e15
    milliseconds on either side of the epoch the date is invalid;
    otherwise the time value is [v] truncated towards zero. *)
Definition newDate (v : Q) : DateValue :=
  if Qltb 8640000000000000 v || Qltb v (-8640000000000000)
  then InvalidDate
  else TimeValue (Z.quot (Qnum v) (Zpos (Qden v))).

(** [d <= t] and [d > t] for a date [d] and a valid date of time value
    [t]: every comparison with an Invalid Date is false. *)
Definition dateLe (d : DateValue) (t : Z) : bool :=
  match d with
  | TimeValue c => c <=? t
  | InvalidDate => false
  end.

Definition dateGt (d : DateValue) (t : Z) : bool :=
  match d with
  | TimeValue c => c >? t
  | InvalidDate => false
  end.

End JS.

Import JS.

(** ** Data model *)

Record Block := mkBlock {
  startTime : option Z;
  actualEndTime : option Z;
  totalTokens : Z;
  isGap : option bool;
  isActive : option bool
}.

Record CcusageData := mkData {
  blocks : option (list Block)
}.

(** ** calculateHourlyBurnRate *)

(** One iteration of the [for (const block of blocks)] loop: the new value
    of the accumulator [totalTokens].  Each [continue] returns the
    accumulator as it is. *)
Definition burnStep (currentTime : Z) (acc : Q) (block : Block) : Q :=
  let oneHourAgo := currentTime - 60 * 60 * 1000 in
  match startTime block with
  | None => acc
  | Some startTime =>
    if truthy (isGap block) then acc else
    let sessionActualEnd :=
      if truthy (isActive block) then currentTime
      else match actualEndTime block with
           | Some actualEnd => actualEnd
           | None => currentTime
           end in
    if sessionActualEnd <? oneHourAgo then acc else
    let sessionStartInHour :=
      if startTime >? oneHourAgo then startTime else oneHourAgo in
    let sessionEndInHour :=
      if sessionActualEnd <? currentTime then sessionActualEnd
      else currentTime in
    if sessionEndInHour <=? sessionStartInHour then acc else
    let totalSessionDuration :=
      (inject_Z (sessionActualEnd - startTime) / 60000)%Q in
    let hourDuration :=
      (inject_Z (sessionEndInHour - sessionStartInHour) / 60000)%Q in
    if Qltb 0 totalSessionDuration then
      let sessionTokens := or0 (totalTokens block) in
      let tokensInHour :=
        (inject_Z sessionTokens * (hourDuration / totalSessionDuration))%Q in
      (acc + tokensInHour)%Q
    else acc
  end.

Definition calculateHourlyBurnRate
    (blocks : option (list Block)) (currentTime : Z) : Q :=
  match blocks with
  | None => 0%Q
  | Some bs =>
    let totalTokens := fold_left (burnStep currentTime) bs 0%Q in
    if Qltb 0 totalTokens then (totalTokens / 60)%Q else 0%Q
  end.

(** *** The burn rate as the specification words it *)

(** The effective end of a block: now if active, else its recorded end,
    else now. *)
Definition effectiveEnd (now : Z) (b : Block) : Z :=
  if truthy (isActive b) then now
  else match actualEndTime b with
       | Some e => e
       | None => now
       end.

(** A block takes part: not a gap, start time known, effective end not
    before now minus 60 minutes. *)
Definition qualifies (now : Z) (b : Block) : bool :=
  negb (truthy (isGap b)) &&
  match startTime b with
  | Some _ => negb (effectiveEnd now b <? now - 3600000)
  | None => false
  end.

(** [W]: minutes of the block's interval clipped to [now - 60min, now]. *)
Definition windowMinutes (now : Z) (b : Block) : Q :=
  match startTime b with
  | Some s =>
    (inject_Z (Z.min (effectiveEnd now b) now - Z.max s (now - 3600000))
     / 60000)%Q
  | None => 0%Q
  end.

(** [D]: minutes from the block's start to its effective end. *)
Definition durationMinutes (now : Z) (b : Block) : Q :=
  match startTime b with
  | Some s => (inject_Z (effectiveEnd now b - s) / 60000)%Q
  | None => 0%Q
  end.

Definition contribution (now : Z) (b : Block) : Q :=
  if Qltb 0 (windowMinutes now b) && Qltb 0 (durationMinutes now b)
  then (inject_Z (totalTokens b)
        * (windowMinutes now b / durationMinutes now b))%Q
  else 0%Q.

Definition Qsum (l : list Q) : Q := fold_right Qplus 0%Q l.

Definition spec_computeHourlyBurnRate (bs : list Block) (now : Z) : Q :=
  let total :=
    Qsum (map (contribution now) (List.filter (qualifies now) bs)) in
  if Qltb 0 total then (total / 60)%Q else 0%Q.

(** ** Dates in local time

    The time arithmetic of ECMAScript's [Date], for a fixed offset
    [LocalTZA] (in milliseconds) between UTC and local time: a zone
    without clock changes.  Zones with clock changes are in [Zoned]
    below, of which this is the case [Zoned.fixedZone LocalTZA]. *)

Module DateTime.

Definition msPerDay : Z := 86400000.
Definition msPerHour : Z := 3600000.
Definition msPerMinute : Z := 60000.
Definition msPerSecond : Z := 1000.

Definition Day (t : Z) : Z := t / msPerDay.
Definition TimeWithinDay (t : Z) : Z := t mod msPerDay.
Definition HourFromTime (t : Z) : Z := (t / msPerHour) mod 24.
Definition MinFromTime (t : Z) : Z := (t / msPerMinute) mod 60.
Definition SecFromTime (t : Z) : Z := (t / msPerSecond) mod 60.
Definition msFromTime (t : Z) : Z := t mod msPerSecond.

Definition MakeTime (hour min sec ms : Z) : Z :=
  hour * msPerHour + min * msPerMinute + sec * msPerSecond + ms.
Definition MakeDate (day time : Z) : Z := day * msPerDay + time.

Section Local.

Variable LocalTZA : Z.

Definition LocalTime (t : Z) : Z := t + LocalTZA.
Definition UTC (t : Z) : Z := t - LocalTZA.

Definition getHours (t : Z) : Z := HourFromTime (LocalTime t).
Definition getMinutes (t : Z) : Z := MinFromTime (LocalTime t).
Definition getSeconds (t : Z) : Z := SecFromTime (LocalTime t).
Definition getMilliseconds (t : Z) : Z := msFromTime (LocalTime t).

(** The local calendar day of [t], as a day number. *)
Definition localDay (t : Z) : Z := Day (LocalTime t).

(** [d.setHours(hour, min, sec, ms)]: same local day, new time of day. *)
Definition setHours (t hour min sec ms : Z) : Z :=
  UTC (MakeDate (Day (LocalTime t)) (MakeTime hour min sec ms)).

(** [d.setDate(d.getDate() + 1)]: the day after, same time of day.  The
    day number that [MakeDay] gives for the date after [t]'s is
    [Day t + 1]. *)
Definition setDate_getDate_plus_1 (t : Z) : Z :=
  UTC (MakeDate (Day (LocalTime t) + 1) (TimeWithinDay (LocalTime t))).

End Local.

End DateTime.

Import DateTime.

(** ** getNextResetTime *)

Definition defaultResetHours : list Z := [4; 9; 14; 18; 23].

(** The [for (const hour of resetHours)] loop with its [break]:
    [nextResetHour] after the loop, [None] for [null]. *)
Fixpoint findResetHour (currentHour currentMinute : Z) (resetHours : list Z)
    : option Z :=
  match resetHours with
  | [] => None
  | hour :: rest =>
    if (currentHour <? hour) || ((currentHour =? hour) && (currentMinute =? 0))
    then Some hour
    else findResetHour currentHour currentMinute rest
  end.

Definition getNextResetTime (LocalTZA : Z)
    (currentTime : Z) (customResetHour : option Z) : Z :=
  let resetHours :=
    match customResetHour with
    | Some h => [h]
    | None => defaultResetHours
    end in
  let localTime := currentTime in
  let currentHour := getHours LocalTZA localTime in
  let currentMinute := getMinutes LocalTZA localTime in
  match findResetHour currentHour currentMinute resetHours with
  | None =>
    let nextResetHour := hd 0 resetHours in
    let nextResetDate := setDate_getDate_plus_1 LocalTZA localTime in
    setHours LocalTZA nextResetDate nextResetHour 0 0 0
  | Some nextResetHour =>
    let nextResetDate := localTime in
    setHours LocalTZA nextResetDate nextResetHour 0 0 0
  end.

(** *** The next reset as the specification words it *)

(** The schedule: the single custom hour if there is one, else the fixed
    daily sequence. *)
Definition schedule (customResetHour : option Z) : list Z :=
  match customResetHour with
  | Some h => [h]
  | None => defaultResetHours
  end.

(** A custom hour is one of 0..23. *)
Definition validCustomHour (customResetHour : option Z) : Prop :=
  match customResetHour with
  | Some h => 0 <= h <= 23
  | None => True
  end.

(** A scheduled hour is still to come today: strictly after the current
    hour, or the current hour itself at minute zero. *)
Definition pendingHour (currentHour currentMinute hour : Z) : Prop :=
  currentHour < hour \/ (currentHour = hour /\ currentMinute = 0).

(** [hour] is the first hour of [hours] that is still to come. *)
Definition firstPending (currentHour currentMinute : Z) (hours : list Z)
    (hour : Z) : Prop :=
  exists before after,
    hours = before ++ hour :: after
    /\ Forall (fun h => ~ pendingHour currentHour currentMinute h) before
    /\ pendingHour currentHour currentMinute hour.

(** The time value of [hour:min:sec.ms] local time on local day [day]. *)
Definition atLocal (LocalTZA : Z) (day hour min sec ms : Z) : Z :=
  UTC LocalTZA (MakeDate day (MakeTime hour min sec ms)).

(** ** Dates in a zone whose offset changes

    The same time arithmetic for a time zone with clock changes, as
    ECMAScript defines it: the offset that [LocalTime] adds depends on
    the time, and the offset that [UTC] takes off depends on the local
    time.  For a local time that a clock change skips, [offsetOfLocal] is
    the offset from before the change, so that [UTC] of it, read as
    local time again, is a later local time. *)

Module Zoned.

Record TimeZone := mkZone {
  offsetAt : Z -> Z;
  offsetOfLocal : Z -> Z
}.

Section Zone.

Variable zone : TimeZone.

Definition LocalTime (t : Z) : Z := t + offsetAt zone t.
Definition UTC (t : Z) : Z := t - offsetOfLocal zone t.

Definition getHours (t : Z) : Z := HourFromTime (LocalTime t).
Definition getMinutes (t : Z) : Z := MinFromTime (LocalTime t).
Definition getSeconds (t : Z) : Z := SecFromTime (LocalTime t).
Definition getMilliseconds (t : Z) : Z := msFromTime (LocalTime t).

Definition localDay (t : Z) : Z := Day (LocalTime t).

Definition setHours (t hour min sec ms : Z) : Z :=
  UTC (MakeDate (Day (LocalTime t)) (MakeTime hour min sec ms)).

Definition setDate_getDate_plus_1 (t : Z) : Z :=
  UTC (MakeDate (Day (LocalTime t) + 1) (TimeWithinDay (LocalTime t))).

Definition getNextResetTime
    (currentTime : Z) (customResetHour : option Z) : Z :=
  let resetHours :=
    match customResetHour with
    | Some h => [h]
    | None => defaultResetHours
    end in
  let localTime := currentTime in
  let currentHour := getHours localTime in
  let currentMinute := getMinutes localTime in
  match findResetHour currentHour currentMinute resetHours with
  | None =>
    let nextResetHour := hd 0 resetHours in
    let nextResetDate := setDate_getDate_plus_1 localTime in
    setHours nextResetDate nextResetHour 0 0 0
  | Some nextResetHour =>
    let nextResetDate := localTime in
    setHours nextResetDate nextResetHour 0 0 0
  end.

(** The local time [t] exists in the zone: it is the local time of the
    time that [UTC] gives for it.  A local time that a clock change
    skips does not exist. *)
Definition localTimeExists (t : Z) : Prop := LocalTime (UTC t) = t.

End Zone.

(** A zone without clock changes. *)
Definition fixedZone (LocalTZA : Z) : TimeZone :=
  mkZone (fun _ => LocalTZA) (fun _ => LocalTZA).

(** The zone has the offset [LocalTZA] at all times. *)
Definition fixedOffset (zone : TimeZone) (LocalTZA : Z) : Prop :=
  forall t, offsetAt zone t = LocalTZA /\ offsetOfLocal zone t = LocalTZA.

(** New York around the clock change of 13 March 2022: five hours behind
    UTC until 07:00 UTC, four hours behind from then on; the local times
    from 02:00 to 03:00 of that day are skipped. *)
Definition newYorkSpring2022 : TimeZone :=
  mkZone (fun t => if t <? 1647154800000 then -18000000 else -14400000)
         (fun t => if t <? 1647140400000 then -18000000 else -14400000).

(** New York around the clock change of 6 November 2022: four hours
    behind UTC until 06:00 UTC, five hours behind from then on; the local
    times from 01:00 to 02:00 of that day occur twice, and [UTC] gives
    the first occurrence. *)
Definition newYorkAutumn2022 : TimeZone :=
  mkZone (fun t => if t <? 1667714400000 then -14400000 else -18000000)
         (fun t => if t <? 1667700000000 then -14400000 else -18000000).

End Zoned.

(** ** getTokenLimit *)

(** The table [limits] of the function body, as the finite map of the
    keys the object literal lists. *)
Definition limits : gmap string Z :=
  <["pro" := 7000]> (<["max5" := 35000]> (<["max20" := 140000]> ∅)).

(** One iteration of the loop over [blocks]: the new [maxTokens]. *)
Definition maxTokensStep (maxTokens : Z) (block : Block) : Z :=
  if negb (truthy (isGap block)) && negb (truthy (isActive block)) then
    let tokens := or0 (totalTokens block) in
    if tokens >? maxTokens then tokens else maxTokens
  else maxTokens.

(** [blocks] is the optional second argument; an array, even an empty
    one, is truthy. *)
Definition getTokenLimit (plan : string) (blocks : option (list Block)) : Z :=
  match (if String.eqb plan "custom_max" then blocks else None) with
  | Some bs =>
    let maxTokens := fold_left maxTokensStep bs 0 in
    if maxTokens >? 0 then maxTokens else 7000
  | None =>
    match limits !! plan with
    | Some v => if v =? 0 then 7000 else v
    | None => 7000
    end
  end.

(** *** The table as an object: what every object inherits

    [limits] above holds the keys that the object literal lists, and
    [getTokenLimit] is the function on the plans for which the table
    answers with a number or not at all.  An object literal also answers
    for the names that it inherits from [Object.prototype], with a
    function or an object; [getTokenLimitResult] is the function on
    every string. *)

(** The property names that every object literal inherits. *)
Definition objectPrototypeNames : list string :=
  ["constructor"; "hasOwnProperty"; "isPrototypeOf";
   "propertyIsEnumerable"; "toLocaleString"; "toString"; "valueOf";
   "__proto__"; "__defineGetter__"; "__defineSetter__";
   "__lookupGetter__"; "__lookupSetter__"]%string.

(** What a lookup in [limits] gives, and so what the function returns: a
    number, or the function or object that [Object.prototype] holds under
    a name. *)
Inductive PropertyValue : Type :=
| NumberValue (n : Z)
| InheritedValue (name : string).

(** [limits[plan]]: the object's own property if it has one, else the
    inherited one; [None] is [undefined]. *)
Definition limitsGet (plan : string) : option PropertyValue :=
  match limits !! plan with
  | Some v => Some (NumberValue v)
  | None =>
    if existsb (String.eqb plan) objectPrototypeNames
    then Some (InheritedValue plan)
    else None
  end.

(** [getTokenLimit] on every string.  A function or an object is truthy,
    so [limits[plan] || 7000] is that function or object. *)
Definition getTokenLimitResult (plan : string)
    (blocks : option (list Block)) : PropertyValue :=
  match (if String.eqb plan "custom_max" then blocks else None) with
  | Some bs =>
    let maxTokens := fold_left maxTokensStep bs 0 in
    NumberValue (if maxTokens >? 0 then maxTokens else 7000)
  | None =>
    match limitsGet plan with
    | Some (NumberValue v) => NumberValue (if v =? 0 then 7000 else v)
    | Some (InheritedValue name) => InheritedValue name
    | None => NumberValue 7000
    end
  end.

(** *** The custom limit as the specification words it *)

(** A block that is neither a gap nor the active one. *)
Definition completedBlock (b : Block) : bool :=
  negb (truthy (isGap b)) && negb (truthy (isActive b)).

(** The token counts of the completed blocks of a history. *)
Definition completedTokens (history : list Block) : list Z :=
  map totalTokens (List.filter completedBlock history).

(** [m] is the maximum of [l]: an element that no element exceeds. *)
Definition isMaximum (m : Z) (l : list Z) : Prop :=
  In m l /\ Forall (fun x => x <= m) l.

(** The largest token count observed in a history, 0 when the history
    has no completed block. *)
Definition maxObserved (history : list Block) : Z :=
  fold_right Z.max 0 (completedTokens history).

(** ** The polling loop of [main] *)

(** The prediction that [main] computes inline from the current time, the
    burn rate, the tokens left and the reset time. *)
Definition predictedEndTime
    (currentTime : Z) (burnRate tokensLeft : Q) (resetTime : Z)
    : DateValue :=
  if Qltb 0 burnRate && Qltb 0 tokensLeft then
    let minutesToDepletion := (tokensLeft / burnRate)%Q in
    let calculatedEndTime :=
      newDate (inject_Z currentTime + minutesToDepletion * 60000)%Q in
    if dateLe calculatedEndTime currentTime then TimeValue resetTime
    else if dateGt calculatedEndTime resetTime then TimeValue resetTime
    else calculatedEndTime
  else TimeValue resetTime.

(** The candidate of the specification, as a number of milliseconds:
    [now] plus [tokensLeft / burnRate] minutes. *)
Definition depletionTime (now : Z) (burnRate tokensLeft : Q) : Q :=
  (inject_Z now + tokensLeft / burnRate * 60000)%Q.

(** The first block with a truthy [isActive]. *)
Fixpoint findActiveBlock (bs : list Block) : option Block :=
  match bs with
  | [] => None
  | block :: rest =>
    if truthy (isActive block) then Some block else findActiveBlock rest
  end.

(** The token limit [main] starts with.  [initialData] is what
    [runCcusage] returns; it is only looked at for plan [custom_max]. *)
Definition initialTokenLimit (plan : string)
    (initialData : option CcusageData) : Z :=
  if String.eqb plan "custom_max" then
    match initialData with
    | Some d =>
      match blocks d with
      | Some bs => getTokenLimit plan (Some bs)
      | None => getTokenLimit "pro" None
      end
    | None => getTokenLimit "pro" None
    end
  else getTokenLimit plan None.

(** The auto-upgrade of the limit inside the loop. *)
Definition upgradeLimit (plan : string) (tokenLimit tokensUsed : Z)
    (bs : list Block) : Z :=
  if (tokensUsed >? tokenLimit) && String.eqb plan "pro" then
    let newLimit := getTokenLimit "custom_max" (Some bs) in
    if newLimit >? tokenLimit then newLimit else tokenLimit
  else tokenLimit.

(** What one pass of the loop hands to the display. *)
Record Display := mkDisplay {
  d_tokensUsed : Z;
  d_tokenLimit : Z;
  d_usagePercentage : Q;
  d_tokensLeft : Z;
  d_burnRate : Q;
  d_resetTime : Z;
  d_predictedEndTime : DateValue
}.

Inductive Outcome :=
| FailedToGetData
| NoActiveSession
| Shown (d : Display).

(** One pass of the [while (true)] loop.  [plan] and [resetHour] are the
    answers of [showMenu]; [tokenLimit] is the loop's only state that the
    metrics use; [data] is what [runCcusage] returned and [currentTime]
    what [new Date()] returned in this pass.  The result is the new
    [tokenLimit] and what was shown. *)
Definition tick (LocalTZA : Z) (plan : string) (resetHour : option Z)
    (tokenLimit : Z) (data : option CcusageData) (currentTime : Z)
    : Z * Outcome :=
  match data with
  | None => (tokenLimit, FailedToGetData)
  | Some d =>
    match blocks d with
    | None => (tokenLimit, FailedToGetData)
    | Some bs =>
      match findActiveBlock bs with
      | None => (tokenLimit, NoActiveSession)
      | Some activeBlock =>
        let tokensUsed := or0 (totalTokens activeBlock) in
        let tokenLimit := upgradeLimit plan tokenLimit tokensUsed bs in
        let usagePercentage :=
          if tokenLimit >? 0
          then (inject_Z tokensUsed / inject_Z tokenLimit * 100)%Q
          else 0%Q in
        let tokensLeft := tokenLimit - tokensUsed in
        let burnRate := calculateHourlyBurnRate (Some bs) currentTime in
        let resetTime := getNextResetTime LocalTZA currentTime None in
        let predicted :=
          predictedEndTime currentTime burnRate (inject_Z tokensLeft)
                           resetTime in
        (tokenLimit,
         Shown (mkDisplay tokensUsed tokenLimit usagePercentage tokensLeft
                          burnRate resetTime predicted))
      end
    end
  end.

(** The loop over the passes of a run: the token limit after all of
    them. *)
Definition runLimit (LocalTZA : Z) (plan : string) (resetHour : option Z)
    (tokenLimit : Z) (passes : list (option CcusageData * Z)) : Z :=
  fold_left
    (fun limit pass =>
       fst (tick LocalTZA plan resetHour limit (fst pass) (snd pass)))
    passes tokenLimit.

(** A pass sees the snapshot [bs] with [tokensUsed] tokens in its active
    block: the data was fetched and the first active block holds that
    count. *)
Definition observes (data : option CcusageData) (bs : list Block)
    (tokensUsed : Z) : Prop :=
  data = Some (mkData (Some bs))
  /\ exists active,
       findActiveBlock bs = Some active /\ tokensUsed = totalTokens active.

(** ** Strings, bars and the graph

    A JavaScript string is the string of the bytes of its UTF-8 encoding.
    [Completion] is what a call does: it returns a value, or it throws
    the [RangeError] of [String.prototype.repeat].  A number is written
    in decimal, as JavaScript does below [10^21]. *)

Inductive Completion (A : Type) : Type :=
| Returns (a : A)
| ThrowsRangeError.

Arguments Returns {A} a.
Arguments ThrowsRangeError {A}.

Fixpoint repeatString (s : string) (n : nat) : string :=
  match n with
  | O => EmptyString
  | S n' => (s ++ repeatString s n')%string
  end.

(** [s.repeat(count)] for an integer [count]: a negative count throws. *)
Definition String_repeat (s : string) (count : Z) : Completion string :=
  if count <? 0 then ThrowsRangeError
  else Returns (repeatString s (Z.to_nat count)).

(** [`${n}`] for an integer [n]. *)
Definition numberToString (n : Z) : string :=
  NilZero.string_of_int (Z.to_int n).

(** [x % y] on numbers: the remainder of the division truncated towards
    zero. *)
Definition Qrem (x y : Q) : Q :=
  (x - y * inject_Z (Z.quot (Qnum (x / y)) (Zpos (Qden (x / y)))))%Q.

Definition Math_min (a b : Q) : Q := if Qle_bool a b then a else b.
Definition Math_max (a b : Q) : Q := if Qle_bool a b then b else a.

(** [x.toFixed(1)]: the nearest tenth, the larger one on a tie, with the
    sign in front. *)
Definition toFixed1 (x : Q) : string :=
  let sign := if Qltb x 0 then "-"%string else EmptyString in
  let x := if Qltb x 0 then (- x)%Q else x in
  let n := Qfloor (x * 10 + (1 # 2))%Q in
  (sign ++ numberToString (n / 10) ++ "." ++ numberToString (n mod 10))%string.

(** The escape sequence [\x1b[<code>m]. *)
Definition sgr (code : string) : string :=
  (String "027"%char EmptyString ++ "[" ++ code ++ "m")%string.

(** ** formatTime *)

Definition formatTime (minutes : Q) : string :=
  if Qltb minutes 60 then
    (numberToString (Qfloor minutes) ++ "m")%string
  else
    let hours := Qfloor (minutes / 60) in
    let mins := Qfloor (Qrem minutes 60) in
    if mins =? 0 then (numberToString hours ++ "h")%string
    else (numberToString hours ++ "h " ++ numberToString mins ++ "m")%string.

(** What the text shows, from the whole minutes [t]: below an hour the
    minutes; from an hour on the hours, and the minutes unless they are
    zero. *)
Definition formatWholeMinutes (t : Z) : string :=
  if t <? 60 then (numberToString t ++ "m")%string
  else if t mod 60 =? 0 then (numberToString (t / 60) ++ "h")%string
  else (numberToString (t / 60) ++ "h " ++ numberToString (t mod 60)
        ++ "m")%string.

(** ** The progress bars *)

(** [createCompactProgressBar], of the first copy of the monitor. *)
Definition createCompactProgressBar (percentage : Q) (width : Z)
    : Completion string :=
  let filled := Qfloor (inject_Z width * percentage / 100) in
  match String_repeat "█" filled with
  | ThrowsRangeError => ThrowsRangeError
  | Returns greenBar =>
    match String_repeat "░" (width - filled) with
    | ThrowsRangeError => ThrowsRangeError
    | Returns redBar =>
      let green := sgr "92" in
      let red := sgr "91" in
      let reset := sgr "0" in
      Returns ("[" ++ green ++ greenBar ++ red ++ redBar ++ reset ++ "]")%string
    end
  end.

(** [createTokenProgressBar], of the second copy of the monitor. *)
Definition createTokenProgressBar (percentage : Q) (width : Z)
    : Completion string :=
  let filled := Qfloor (inject_Z width * percentage / 100) in
  match String_repeat "█" filled with
  | ThrowsRangeError => ThrowsRangeError
  | Returns greenBar =>
    match String_repeat "░" (width - filled) with
    | ThrowsRangeError => ThrowsRangeError
    | Returns redBar =>
      let green := sgr "92" in
      let red := sgr "91" in
      let reset := sgr "0" in
      let stateIcon :=
        if Qle_bool 95 percentage then "🔴"%string
        else if Qle_bool 85 percentage then "🟠"%string
        else if Qle_bool 75 percentage then "🟡"%string
        else "🟢"%string in
      Returns (stateIcon ++ " [" ++ green ++ greenBar ++ red ++ redBar
               ++ reset ++ "] " ++ toFixed1 percentage ++ "%")%string
    end
  end.

(** [createTimeProgressBar], of the second copy of the monitor. *)
Definition createTimeProgressBar (elapsedMinutes totalMinutes : Q)
    (width : Z) : Completion string :=
  let percentage :=
    if Qle_bool totalMinutes 0 then 0%Q
    else Math_min 100 (elapsedMinutes / totalMinutes * 100)%Q in
  let filled := Qfloor (inject_Z width * percentage / 100) in
  match String_repeat "█" filled with
  | ThrowsRangeError => ThrowsRangeError
  | Returns blueBar =>
    match String_repeat "░" (width - filled) with
    | ThrowsRangeError => ThrowsRangeError
    | Returns redBar =>
      let blue := sgr "94" in
      let red := sgr "91" in
      let reset := sgr "0" in
      let remainingTime :=
        formatTime (Math_max 0 (totalMinutes - elapsedMinutes)%Q) in
      Returns ("⏰ [" ++ blue ++ blueBar ++ red ++ redBar ++ reset ++ "] "
               ++ remainingTime)%string
    end
  end.

(** ** createMiniGraph *)

Definition bars : list string :=
  ["▁"; "▂"; "▃"; "▄"; "▅"; "▆"; "▇"; "█"]%string.

(** [`${bars[barIndex]}`]: outside the array the element is [undefined]. *)
Definition barAt (barIndex : Z) : string :=
  if barIndex <? 0 then "undefined"%string
  else nth (Z.to_nat barIndex) bars "undefined"%string.

(** What one iteration of the loop appends to [graph]. *)
Definition graphCell (rate : Q) : string :=
  let maxScale := 400%Q in
  let normalized := Math_min (rate / maxScale) 1 in
  let barIndex := Qfloor (normalized * (8 - 1))%Q in
  let color :=
    if Qltb 200 rate then sgr "91"
    else if Qltb 100 rate then sgr "93"
    else sgr "92" in
  (color ++ barAt barIndex ++ sgr "0")%string.

(** The loop [for (let i = startIndex; i < history.length; i++)], with
    [steps] iterations left. *)
Fixpoint graphLoop (history : list Q) (i steps : nat) (graph : string)
    : string :=
  match steps with
  | O => graph
  | S steps' =>
    graphLoop history (S i) steps'
              (graph ++ graphCell (nth i history 0%Q))%string
  end.

Definition createMiniGraph (history : list Q) (width : Z)
    : Completion string :=
  if Z.of_nat (length history) =? 0 then String_repeat " " width
  else
    let startIndex := Z.max 0 (Z.of_nat (length history) - width) in
    let graph :=
      graphLoop history (Z.to_nat startIndex)
                (length history - Z.to_nat startIndex)%nat EmptyString in
    let remaining := width - (Z.of_nat (length history) - startIndex) in
    if remaining >? 0 then
      match String_repeat " " remaining with
      | ThrowsRangeError => ThrowsRangeError
      | Returns padding => Returns (padding ++ graph)%string
      end
    else Returns graph.

(** The cells of a graph, one after the other. *)
Definition joinCells (cells : list string) : string :=
  fold_right String.append EmptyString cells.

(** The tokens recorded in the blocks that take part in the burn rate. *)
Definition qualifyingTokens (now : Z) (bs : list Block) : Z :=
  fold_right Z.add 0 (map totalTokens (List.filter (qualifies now) bs)).

(** ** The burn-rate history of the first copy of [main] *)

(** [burnRateHistory.push(burnRate)], then [shift()] when more than 120
    entries are held. *)
Definition recordBurnRate (burnRateHistory : list Q) (burnRate : Q)
    : list Q :=
  let pushed := burnRateHistory ++ [burnRate] in
  if Z.of_nat (length pushed) >? 120 then tl pushed else pushed.

(** One pass, with the history beside the token limit: the history grows
    in the passes that get as far as the burn rate. *)
Definition tickState (LocalTZA : Z) (plan : string) (resetHour : option Z)
    (state : Z * list Q) (data : option CcusageData) (currentTime : Z)
    : Z * list Q :=
  let result :=
    tick LocalTZA plan resetHour (fst state) data currentTime in
  match snd result with
  | Shown d => (fst result, recordBurnRate (snd state) (d_burnRate d))
  | _ => (fst result, snd state)
  end.

Definition runState (LocalTZA : Z) (plan : string) (resetHour : option Z)
    (state : Z * list Q) (passes : list (option CcusageData * Z))
    : Z * list Q :=
  fold_left
    (fun st pass =>
       tickState LocalTZA plan resetHour st (fst pass) (snd pass))
    passes state.

(** The burn rate a pass records, if it records one. *)
Definition passBurnRate (pass : option CcusageData * Z) : option Q :=
  match fst pass with
  | Some (mkData (Some bs)) =>
    match findActiveBlock bs with
    | Some _ => Some (calculateHourlyBurnRate (Some bs) (snd pass))
    | None => None
    end
  | _ => None
  end.

(** The burn rates that the passes of a run record, in order. *)
Definition recordedRates (passes : list (option CcusageData * Z)) : list Q :=
  flat_map (fun pass => match passBurnRate pass with
                        | Some rate => [rate]
                        | None => []
                        end) passes.

(** The last [n] elements of a list. *)
Definition lastN {A : Type} (n : nat) (l : list A) : list A :=
  skipn (length l - n) l.

(** The progress bar that a pass of the first copy of [main] draws from
    what it shows, and the one of the second copy, whose width is 50 in
    verbose mode and 15 in minimal mode. *)
Definition passCompactProgressBar (d : Display) : Completion string :=
  createCompactProgressBar (d_usagePercentage d) 20.

Definition passTokenProgressBar (displayMode : string) (d : Display)
    : Completion string :=
  if String.eqb displayMode "minimal"
  then createTokenProgressBar (d_usagePercentage d) 15
  else createTokenProgressBar (d_usagePercentage d) 50.

(** * Properties *)

(** ** Helpers *)

Lemma Qltb_lt (x y : Q) : Qltb x y = true <-> (x < y)%Q.
Proof.
  unfold Qltb. rewrite negb_true_iff, <- not_true_iff_false, Qle_bool_iff.
  split; [apply Qnot_le_lt | apply Qlt_not_le].
Qed.

Lemma Qltb_ge (x y : Q) : Qltb x y = false <-> (y <= x)%Q.
Proof.
  unfold Qltb. rewrite negb_false_iff. apply Qle_bool_iff.
Qed.

Lemma Qltb_minutes (z : Z) : Qltb 0 (inject_Z z / 60000) = (0 <? z).
Proof.
  apply eq_true_iff_eq. rewrite Qltb_lt, Z.ltb_lt.
  unfold Qlt, Qdiv, Qmult, Qinv, inject_Z; simpl. lia.
Qed.

Lemma or0_id (x : Z) : or0 x = x.
Proof. unfold or0. destruct (Z.eqb_spec x 0); congruence. Qed.

(** ** The burn rate *)

(** What one loop iteration adds, in the words of the specification. *)
Lemma burnStep_contribution (now : Z) (acc : Q) (b : Block) :
  (burnStep now acc b ==
   acc + (if qualifies now b then contribution now b else 0))%Q.
Proof.
  unfold burnStep, qualifies, contribution, windowMinutes, durationMinutes.
  destruct (startTime b) as [s|];
    [| rewrite andb_false_r; cbv iota; ring].
  destruct (truthy (isGap b)); simpl negb; cbv beta iota;
    [rewrite andb_false_l; cbv iota; ring|].
  rewrite andb_true_l.
  fold (effectiveEnd now b).
  change (now - 60 * 60 * 1000) with (now - 3600000).
  set (e := effectiveEnd now b).
  destruct (Z.ltb_spec e (now - 3600000)) as [Hold|Hold]; simpl negb;
    cbv beta iota; [ring|].
  rewrite !Qltb_minutes, or0_id.
  assert (Hs : (if s >? now - 3600000 then s else now - 3600000)
               = Z.max s (now - 3600000)).
  { rewrite Z.gtb_ltb. destruct (Z.ltb_spec (now - 3600000) s); lia. }
  assert (He : (if e <? now then e else now) = Z.min e now).
  { destruct (Z.ltb_spec e now); lia. }
  rewrite Hs, He.
  destruct (Z.leb_spec (Z.min e now) (Z.max s (now - 3600000))) as [Hw|Hw].
  - destruct (Z.ltb_spec 0 (Z.min e now - Z.max s (now - 3600000)));
      [lia|]. rewrite andb_false_l. ring.
  - destruct (Z.ltb_spec 0 (Z.min e now - Z.max s (now - 3600000)));
      [|lia]. rewrite andb_true_l.
    destruct (0 <? e - s); ring.
Qed.

Lemma fold_burnStep_sum (now : Z) (bs : list Block) (acc : Q) :
  (fold_left (burnStep now) bs acc ==
   acc + Qsum (map (contribution now) (List.filter (qualifies now) bs)))%Q.
Proof.
  revert acc. induction bs as [|b bs IH]; intros acc;
    cbn [fold_left List.filter].
  - cbn [map Qsum fold_right]. ring.
  - rewrite IH, burnStep_contribution.
    destruct (qualifies now b); cbn [map Qsum fold_right];
      fold (Qsum (map (contribution now) (List.filter (qualifies now) bs)));
      ring.
Qed.

#[local] Instance Qltb_Proper : Proper (Qeq ==> Qeq ==> eq) Qltb.
Proof.
  intros x x' Hx y y' Hy. unfold Qltb. now rewrite Hx, Hy.
Qed.

(** C1.  For every snapshot of blocks and every time [now],
    [calculateHourlyBurnRate] returns the sum, over the non-gap blocks
    with a known start time whose effective end does not precede
    [now - 60min], of [totalTokens * (W / D)] (a block counting only when
    [W > 0] and [D > 0]), divided by 60; it returns 0 when no block
    qualifies and when the total is not positive. *)
Theorem calculateHourlyBurnRate_is_spec (bs : list Block) (now : Z) :
  let total :=
    Qsum (map (contribution now) (List.filter (qualifies now) bs)) in
  (calculateHourlyBurnRate (Some bs) now
   == spec_computeHourlyBurnRate bs now)%Q
  /\ ((0 < total)%Q ->
      (calculateHourlyBurnRate (Some bs) now == total / 60)%Q)
  /\ ((total <= 0)%Q -> calculateHourlyBurnRate (Some bs) now = 0%Q)
  /\ (List.filter (qualifies now) bs = [] ->
      calculateHourlyBurnRate (Some bs) now = 0%Q).
Proof.
  intros total.
  assert (Hfold : (fold_left (burnStep now) bs 0 == total)%Q).
  { rewrite fold_burnStep_sum. subst total. ring. }
  unfold calculateHourlyBurnRate, spec_computeHourlyBurnRate.
  fold total. cbv zeta.
  assert (Heq : Qltb 0%Q (fold_left (burnStep now) bs 0%Q)
               = Qltb 0%Q total)
    by now rewrite Hfold.
  rewrite Heq.
  assert (Hnonpos : (total <= 0)%Q ->
                    (if Qltb 0%Q total
                     then (fold_left (burnStep now) bs 0 / 60)%Q
                     else 0%Q) = 0%Q).
  { intros H. apply Qltb_ge in H. now rewrite H. }
  repeat split.
  - destruct (Qltb 0 total); [now rewrite Hfold | reflexivity].
  - intros H. apply Qltb_lt in H. rewrite H. now rewrite Hfold.
  - exact Hnonpos.
  - intros Hnil. apply Hnonpos. subst total. rewrite Hnil. simpl.
    apply Qle_refl.
Qed.

(** Two hours after the epoch: an active block that began 30 minutes ago
    with 600 tokens burns 10 tokens a minute; so does a block of 1200
    tokens that ran from 90 to 30 minutes ago, half of it in the window;
    together they burn 20. *)
Example burn_rate_active_block :
  Qeq (calculateHourlyBurnRate
         (Some [mkBlock (Some 5400000) None 600 None (Some true)])
         7200000)
      10%Q.
Proof. vm_compute. reflexivity. Qed.

Example burn_rate_closed_block :
  Qeq (calculateHourlyBurnRate
         (Some [mkBlock (Some 1800000) (Some 5400000) 1200 None None])
         7200000)
      10%Q.
Proof. vm_compute. reflexivity. Qed.

Example burn_rate_two_blocks :
  Qeq (calculateHourlyBurnRate
         (Some [mkBlock (Some 1800000) (Some 5400000) 1200 None None;
                mkBlock None None 4000 None None;
                mkBlock (Some 5400000) None 600 None (Some true)])
         7200000)
      20%Q.
Proof. vm_compute. reflexivity. Qed.

(** A block that the loop passes over leaves the accumulator as it is. *)
Lemma burnStep_skip (now : Z) (b : Block) :
  isGap b = Some true \/ effectiveEnd now b < now - 3600000 ->
  forall acc, burnStep now acc b = acc.
Proof.
  intros H acc. unfold burnStep.
  destruct (startTime b) as [s|]; [|reflexivity].
  destruct H as [Hgap|Hold].
  - rewrite Hgap. reflexivity.
  - destruct (truthy (isGap b)); [reflexivity|].
    fold (effectiveEnd now b).
    change (now - 60 * 60 * 1000) with (now - 3600000).
    apply Z.ltb_lt in Hold. rewrite Hold. reflexivity.
Qed.

(** C7.  A block with [isGap = true], whatever its other fields, and a
    block whose effective end is more than 60 minutes before [now], adds
    exactly 0: its contribution is 0, the loop leaves the running total as
    it is, and the burn rate of any snapshot is the same with the block
    and without it. *)
Theorem gap_or_old_block_contributes_nothing (now : Z) (b : Block) :
  isGap b = Some true \/ effectiveEnd now b < now - 3600000 ->
  (if qualifies now b then contribution now b else 0%Q) = 0%Q
  /\ (forall acc, burnStep now acc b = acc)
  /\ (forall before after,
        calculateHourlyBurnRate (Some (before ++ b :: after)) now
        = calculateHourlyBurnRate (Some (before ++ after)) now).
Proof.
  intros H. split; [|split].
  - unfold qualifies. destruct H as [Hgap|Hold].
    + rewrite Hgap. reflexivity.
    + apply Z.ltb_lt in Hold. rewrite Hold.
      destruct (startTime b); rewrite ?andb_false_r; reflexivity.
  - now apply burnStep_skip.
  - intros before after. unfold calculateHourlyBurnRate.
    rewrite !fold_left_app. cbn [fold_left].
    rewrite (burnStep_skip now b H). reflexivity.
Qed.

Lemma gap_or_old_block_contributes_nothing_witness :
  calculateHourlyBurnRate
    (Some [mkBlock (Some 0) (Some 1800000) 500 (Some true) None;
           mkBlock (Some 600000) None 900 None (Some true)]) 3600000
  = calculateHourlyBurnRate
      (Some [mkBlock (Some 600000) None 900 None (Some true)]) 3600000
  /\ calculateHourlyBurnRate
       (Some [mkBlock (Some 0) (Some 1800000) 500 None None;
              mkBlock (Some 86400000) None 900 None (Some true)]) 90000000
     = calculateHourlyBurnRate
         (Some [mkBlock (Some 86400000) None 900 None (Some true)]) 90000000.
Proof.
  split.
  - apply (proj2 (proj2 (gap_or_old_block_contributes_nothing 3600000
             (mkBlock (Some 0) (Some 1800000) 500 (Some true) None)
             (or_introl eq_refl))) []).
  - refine (proj2 (proj2 (gap_or_old_block_contributes_nothing 90000000
             (mkBlock (Some 0) (Some 1800000) 500 None None)
             (or_intror _))) [] _).
    vm_compute. reflexivity.
Defined.

(** C8.  For every snapshot, whatever the fields of its blocks hold, and
    every [now], the burn rate is at least 0; for the empty snapshot (and
    for a missing one) it is exactly 0. *)
Theorem calculateHourlyBurnRate_nonneg
    (blocks : option (list Block)) (now : Z) :
  (0 <= calculateHourlyBurnRate blocks now)%Q
  /\ calculateHourlyBurnRate (Some []) now = 0%Q
  /\ calculateHourlyBurnRate None now = 0%Q.
Proof.
  split; [|split; reflexivity].
  unfold calculateHourlyBurnRate. destruct blocks as [bs|];
    [|apply Qle_refl].
  cbv zeta.
  destruct (Qltb 0 (fold_left (burnStep now) bs 0%Q)) eqn:Hpos;
    [|apply Qle_refl].
  apply Qltb_lt in Hpos. apply Qlt_le_weak.
  apply Qlt_shift_div_l; [reflexivity|]. now rewrite Qmult_0_l.
Qed.

(** ** The prediction *)

Lemma newDate_beyond_range (v : Q) :
  (8640000000000000 < v)%Q -> newDate v = InvalidDate.
Proof.
  intros Hv. unfold newDate. apply Qltb_lt in Hv. now rewrite Hv.
Qed.

(** C2 (the prediction is [resetTime] whenever the candidate is after
    [resetTime], and is never after [resetTime]) does not hold of the
    code in [main] when the candidate lies beyond the range of [Date]
    (here by 16 milliseconds or more, which no rounding of the sum makes
    up for): [new Date] then gives an Invalid Date, both comparisons of
    the code are false, and the Invalid Date is the prediction.  So it is
    with
    plan [pro], an active block without tokens, and one token in a block
    of five hours that ended 50 milliseconds inside the last hour: the
    burn rate is positive, 7000 tokens are left, the candidate is some
    287000 years away and so after the reset time, and the prediction is
    not the reset time but an Invalid Date. *)
Theorem predictedEndTime_beyond_date_range :
  (forall now burnRate tokensLeft resetTime,
     (0 < burnRate)%Q -> (0 < tokensLeft)%Q ->
     (8640000000000016 <= depletionTime now burnRate tokensLeft)%Q ->
     predictedEndTime now burnRate tokensLeft resetTime = InvalidDate)
  /\ (let now := 1700000000000 in
      let data :=
        Some (mkData (Some
          [mkBlock (Some (now - 21600000 + 50)) (Some (now - 3600000 + 50))
                   1 None None;
           mkBlock (Some (now - 600000)) None 0 None (Some true)])) in
      exists d,
        snd (tick 0 "pro" None 7000 data now) = Shown d
        /\ (0 < d_burnRate d)%Q
        /\ d_tokensLeft d = 7000
        /\ (inject_Z (d_resetTime d)
            < depletionTime now (d_burnRate d) (inject_Z (d_tokensLeft d)))%Q
        /\ (9000000000000000
            < depletionTime now (d_burnRate d) (inject_Z (d_tokensLeft d)))%Q
        /\ d_predictedEndTime d = InvalidDate
        /\ d_predictedEndTime d <> TimeValue (d_resetTime d)).
Proof.
  split.
  - intros now burnRate tokensLeft resetTime Hrate Hleft Hfar.
    unfold predictedEndTime. apply Qltb_lt in Hrate, Hleft.
    rewrite Hrate, Hleft. cbn [andb]. cbv zeta.
    fold (depletionTime now burnRate tokensLeft).
    rewrite newDate_beyond_range; [reflexivity|].
    apply Qlt_le_trans with (2 := Hfar). reflexivity.
  - cbv zeta. eexists. split; [reflexivity|].
    cbn [d_burnRate d_tokensLeft d_resetTime d_predictedEndTime].
    repeat split; try (vm_compute; reflexivity).
    vm_compute. discriminate.
Qed.

(** The examples of the specification, at [T = 1700000000000]. *)
Example predictedEndTime_no_burn :
  predictedEndTime 1700000000000 0 100 1700010800000
  = TimeValue 1700010800000.
Proof. reflexivity. Qed.

Example predictedEndTime_before_reset :
  predictedEndTime 1700000000000 50 100 1700010800000
  = TimeValue 1700000120000.
Proof. reflexivity. Qed.

Example predictedEndTime_after_reset :
  predictedEndTime 1700000000000 1 100 1700001800000
  = TimeValue 1700001800000.
Proof. reflexivity. Qed.

(** ** The next reset *)

Ltac date_unfold :=
  unfold atLocal, getHours, getMinutes, getSeconds, getMilliseconds,
         localDay, setHours, setDate_getDate_plus_1, HourFromTime,
         MinFromTime, SecFromTime, msFromTime, Day, TimeWithinDay,
         MakeDate, MakeTime, LocalTime, UTC, msPerDay, msPerHour,
         msPerMinute, msPerSecond in *.

Ltac date_lia := date_unfold; Z.to_euclidean_division_equations; lia.

Lemma setHours_zeroes (tz t h : Z) :
  getMinutes tz (setHours tz t h 0 0 0) = 0
  /\ getSeconds tz (setHours tz t h 0 0 0) = 0
  /\ getMilliseconds tz (setHours tz t h 0 0 0) = 0.
Proof. date_lia. Qed.

Lemma setHours_hour (tz t h : Z) :
  0 <= h <= 23 ->
  localDay tz (setHours tz t h 0 0 0) = localDay tz t
  /\ getHours tz (setHours tz t h 0 0 0) = h.
Proof. intros Hh. date_lia. Qed.

Lemma setDate_next_day (tz t : Z) :
  localDay tz (setDate_getDate_plus_1 tz t) = localDay tz t + 1.
Proof. date_lia. Qed.

Lemma setHours_atLocal (tz t h : Z) :
  setHours tz t h 0 0 0 = atLocal tz (localDay tz t) h 0 0 0.
Proof. reflexivity. Qed.

Lemma atLocal_fields (tz day h m s ms : Z) :
  0 <= h <= 23 -> 0 <= m <= 59 -> 0 <= s <= 59 -> 0 <= ms <= 999 ->
  localDay tz (atLocal tz day h m s ms) = day
  /\ getHours tz (atLocal tz day h m s ms) = h
  /\ getMinutes tz (atLocal tz day h m s ms) = m
  /\ getSeconds tz (atLocal tz day h m s ms) = s
  /\ getMilliseconds tz (atLocal tz day h m s ms) = ms.
Proof. intros Hh Hm Hs Hms. date_lia. Qed.

Example findResetHour_default_1030 :
  findResetHour 10 30 defaultResetHours = Some 14.
Proof. reflexivity. Qed.

Example findResetHour_default_2330 :
  findResetHour 23 30 defaultResetHours = None.
Proof. reflexivity. Qed.

Example findResetHour_default_0900 :
  findResetHour 9 0 defaultResetHours = Some 9.
Proof. reflexivity. Qed.

(** The loop condition decides [pendingHour]. *)
Lemma pendingHour_test (H M h : Z) :
  (H <? h) || ((H =? h) && (M =? 0)) = true <-> pendingHour H M h.
Proof.
  unfold pendingHour.
  rewrite orb_true_iff, andb_true_iff, Z.ltb_lt, !Z.eqb_eq. reflexivity.
Qed.

Lemma findResetHour_Some (H M : Z) (hours : list Z) (h : Z) :
  findResetHour H M hours = Some h <-> firstPending H M hours h.
Proof.
  split.
  - induction hours as [|x rest IH]; cbn [findResetHour]; [discriminate|].
    destruct ((H <? x) || ((H =? x) && (M =? 0))) eqn:Hx.
    + intros [= <-]. exists [], rest. split; [reflexivity|].
      split; [constructor | now apply pendingHour_test].
    + intros Hrest. destruct (IH Hrest) as (pre & post & -> & Hpre & Hh).
      exists (x :: pre), post. split; [reflexivity|]. split; [|exact Hh].
      constructor; [|exact Hpre].
      rewrite <- pendingHour_test, Hx. discriminate.
  - intros (pre & post & -> & Hpre & Hh).
    induction Hpre as [|x pre Hx _ IH]; cbn [app findResetHour].
    + apply pendingHour_test in Hh. now rewrite Hh.
    + destruct ((H <? x) || ((H =? x) && (M =? 0))) eqn:Hb; [|exact IH].
      apply pendingHour_test in Hb. contradiction.
Qed.

Lemma findResetHour_None (H M : Z) (hours : list Z) :
  findResetHour H M hours = None
  <-> Forall (fun h => ~ pendingHour H M h) hours.
Proof.
  induction hours as [|x rest IH]; cbn [findResetHour].
  - split; [constructor | reflexivity].
  - destruct ((H <? x) || ((H =? x) && (M =? 0))) eqn:Hx.
    + split; [discriminate|]. intros Hall. inversion Hall as [|? ? Hn _].
      apply pendingHour_test in Hx. contradiction.
    + rewrite IH. split.
      * intros Hall. constructor; [|exact Hall].
        rewrite <- pendingHour_test, Hx. discriminate.
      * intros Hall. now inversion Hall.
Qed.

Lemma schedule_hd_valid (custom : option Z) :
  validCustomHour custom -> 0 <= hd 0 (schedule custom) <= 23.
Proof. destruct custom; cbn; lia. Qed.

Lemma schedule_all_valid (custom : option Z) :
  validCustomHour custom -> Forall (fun h => 0 <= h <= 23) (schedule custom).
Proof.
  destruct custom; cbn; intros Hv;
    repeat (constructor; try lia).
Qed.

Lemma getNextResetTime_cases (tz now : Z) (custom : option Z) :
  getNextResetTime tz now custom =
  match findResetHour (getHours tz now) (getMinutes tz now)
                      (schedule custom) with
  | Some h => setHours tz now h 0 0 0
  | None =>
    setHours tz (setDate_getDate_plus_1 tz now) (hd 0 (schedule custom))
             0 0 0
  end.
Proof. reflexivity. Qed.

(** *** In a zone with clock changes *)

Ltac time_unfold :=
  unfold HourFromTime, MinFromTime, SecFromTime, msFromTime, Day,
         TimeWithinDay, MakeDate, MakeTime, msPerDay, msPerHour,
         msPerMinute, msPerSecond in *.

Ltac time_lia := time_unfold; Z.to_euclidean_division_equations; lia.

(** The fields of [hour:00:00.000] on a day. *)
Lemma MakeDate_on_the_hour (day h : Z) :
  0 <= h <= 23 ->
  Day (MakeDate day (MakeTime h 0 0 0)) = day
  /\ HourFromTime (MakeDate day (MakeTime h 0 0 0)) = h
  /\ MinFromTime (MakeDate day (MakeTime h 0 0 0)) = 0
  /\ SecFromTime (MakeDate day (MakeTime h 0 0 0)) = 0
  /\ msFromTime (MakeDate day (MakeTime h 0 0 0)) = 0.
Proof. intros Hh. time_lia. Qed.

Lemma MakeDate_fields (day h m s ms : Z) :
  0 <= h <= 23 -> 0 <= m <= 59 -> 0 <= s <= 59 -> 0 <= ms <= 999 ->
  Day (MakeDate day (MakeTime h m s ms)) = day
  /\ HourFromTime (MakeDate day (MakeTime h m s ms)) = h
  /\ MinFromTime (MakeDate day (MakeTime h m s ms)) = m
  /\ TimeWithinDay (MakeDate day (MakeTime h m s ms)) = MakeTime h m s ms.
Proof. intros Hh Hm Hs Hms. time_lia. Qed.

Lemma Zoned_getNextResetTime_cases (zone : Zoned.TimeZone) (now : Z)
    (custom : option Z) :
  Zoned.getNextResetTime zone now custom =
  match findResetHour (Zoned.getHours zone now) (Zoned.getMinutes zone now)
                      (schedule custom) with
  | Some h => Zoned.setHours zone now h 0 0 0
  | None =>
    Zoned.setHours zone (Zoned.setDate_getDate_plus_1 zone now)
                   (hd 0 (schedule custom)) 0 0 0
  end.
Proof. reflexivity. Qed.

(** A time set to an existing local time on the hour reads back as that
    hour of that day. *)
Lemma Zoned_on_the_hour (zone : Zoned.TimeZone) (day h : Z) :
  0 <= h <= 23 ->
  Zoned.localTimeExists zone (MakeDate day (MakeTime h 0 0 0)) ->
  let r := Zoned.UTC zone (MakeDate day (MakeTime h 0 0 0)) in
  Zoned.localDay zone r = day
  /\ Zoned.getHours zone r = h
  /\ Zoned.getMinutes zone r = 0
  /\ Zoned.getSeconds zone r = 0
  /\ Zoned.getMilliseconds zone r = 0.
Proof.
  intros Hh Hexists r. subst r.
  unfold Zoned.localDay, Zoned.getHours, Zoned.getMinutes, Zoned.getSeconds,
         Zoned.getMilliseconds.
  unfold Zoned.localTimeExists in Hexists. rewrite Hexists.
  now apply MakeDate_on_the_hour.
Qed.

(** In a zone without clock changes every local time exists. *)
Lemma fixedOffset_localTimeExists (zone : Zoned.TimeZone) (tz t : Z) :
  Zoned.fixedOffset zone tz -> Zoned.localTimeExists zone t.
Proof.
  intros Hfixed. unfold Zoned.localTimeExists, Zoned.LocalTime, Zoned.UTC.
  destruct (Hfixed t) as [_ ->].
  destruct (Hfixed (t - tz)) as [-> _]. lia.
Qed.

(** In a zone without clock changes the dates are those of [DateTime]. *)
Lemma fixedOffset_LocalTime (zone : Zoned.TimeZone) (tz t : Z) :
  Zoned.fixedOffset zone tz -> Zoned.LocalTime zone t = LocalTime tz t.
Proof.
  intros Hfixed. unfold Zoned.LocalTime, LocalTime.
  now destruct (Hfixed t) as [-> _].
Qed.

Lemma fixedOffset_UTC (zone : Zoned.TimeZone) (tz t : Z) :
  Zoned.fixedOffset zone tz -> Zoned.UTC zone t = UTC tz t.
Proof.
  intros Hfixed. unfold Zoned.UTC, UTC.
  now destruct (Hfixed t) as [_ ->].
Qed.

Lemma fixedOffset_getMinutes (zone : Zoned.TimeZone) (tz t : Z) :
  Zoned.fixedOffset zone tz -> Zoned.getMinutes zone t = getMinutes tz t.
Proof.
  intros Hfixed. unfold Zoned.getMinutes, getMinutes.
  now rewrite (fixedOffset_LocalTime zone tz).
Qed.

Lemma fixedOffset_getNextResetTime (zone : Zoned.TimeZone) (tz now : Z)
    (custom : option Z) :
  Zoned.fixedOffset zone tz ->
  Zoned.getNextResetTime zone now custom = getNextResetTime tz now custom.
Proof.
  intros Hfixed.
  unfold Zoned.getNextResetTime, getNextResetTime, Zoned.getHours,
         Zoned.getMinutes, Zoned.setHours, Zoned.setDate_getDate_plus_1,
         getHours, getMinutes, setHours, setDate_getDate_plus_1.
  cbv zeta.
  rewrite !(fixedOffset_LocalTime zone tz now Hfixed).
  destruct (findResetHour _ _ _);
    rewrite ?(fixedOffset_UTC zone tz _ Hfixed),
            ?(fixedOffset_LocalTime zone tz _ Hfixed);
    reflexivity.
Qed.

Lemma fixedZone_fixedOffset (tz : Z) :
  Zoned.fixedOffset (Zoned.fixedZone tz) tz.
Proof. intros t. split; reflexivity. Qed.

(** C3, amended.  In any time zone, for every [now] and schedule (the
    single custom hour, one of 0..23, if there is one, else 4, 9, 14, 18,
    23), [getNextResetTime] aims at the first hour of the schedule that
    is after [now]'s hour, or equal to it when [now]'s minute is zero, on
    [now]'s local calendar day, and, if there is none, at the first hour
    of the schedule on the next calendar day, provided the local time of
    day of [now] exists on that day.  Where the local time aimed at
    exists, the result reads back as that hour of that day, with minutes,
    seconds and milliseconds zero; a local time that a clock change
    skips reads back as a later hour.  One of the two cases always
    applies.  With the default schedule and under the same provisos,
    10:30 gives 14:00 the same day, 23:30 gives 04:00 the next day,
    04:00:00.000 gives itself.  In a zone without clock changes every
    local time exists. *)
Theorem getNextResetTime_in_zone (zone : Zoned.TimeZone) :
  (forall (now : Z) (custom : option Z),
     validCustomHour custom ->
     let r := Zoned.getNextResetTime zone now custom in
     let H := Zoned.getHours zone now in
     let M := Zoned.getMinutes zone now in
     let today := Zoned.localDay zone now in
     (forall h, firstPending H M (schedule custom) h ->
        r = Zoned.UTC zone (MakeDate today (MakeTime h 0 0 0))
        /\ (Zoned.localTimeExists zone (MakeDate today (MakeTime h 0 0 0)) ->
            Zoned.localDay zone r = today
            /\ Zoned.getHours zone r = h
            /\ Zoned.getMinutes zone r = 0
            /\ Zoned.getSeconds zone r = 0
            /\ Zoned.getMilliseconds zone r = 0))
     /\ (Forall (fun h => ~ pendingHour H M h) (schedule custom) ->
         Zoned.localTimeExists zone
           (MakeDate (today + 1) (TimeWithinDay (Zoned.LocalTime zone now))) ->
         let first := hd 0 (schedule custom) in
         r = Zoned.UTC zone (MakeDate (today + 1) (MakeTime first 0 0 0))
         /\ (Zoned.localTimeExists zone
               (MakeDate (today + 1) (MakeTime first 0 0 0)) ->
             Zoned.localDay zone r = today + 1
             /\ Zoned.getHours zone r = first
             /\ Zoned.getMinutes zone r = 0
             /\ Zoned.getSeconds zone r = 0
             /\ Zoned.getMilliseconds zone r = 0))
     /\ ((exists h, firstPending H M (schedule custom) h)
         \/ Forall (fun h => ~ pendingHour H M h) (schedule custom)))
  /\ (forall now day sec ms, 0 <= sec <= 59 -> 0 <= ms <= 999 ->
        Zoned.LocalTime zone now = MakeDate day (MakeTime 10 30 sec ms) ->
        Zoned.localTimeExists zone (MakeDate day (MakeTime 14 0 0 0)) ->
        Zoned.LocalTime zone (Zoned.getNextResetTime zone now None)
        = MakeDate day (MakeTime 14 0 0 0))
  /\ (forall now day sec ms, 0 <= sec <= 59 -> 0 <= ms <= 999 ->
        Zoned.LocalTime zone now = MakeDate day (MakeTime 23 30 sec ms) ->
        Zoned.localTimeExists zone
          (MakeDate (day + 1) (MakeTime 23 30 sec ms)) ->
        Zoned.localTimeExists zone (MakeDate (day + 1) (MakeTime 4 0 0 0)) ->
        Zoned.LocalTime zone (Zoned.getNextResetTime zone now None)
        = MakeDate (day + 1) (MakeTime 4 0 0 0))
  /\ (forall now day,
        Zoned.LocalTime zone now = MakeDate day (MakeTime 4 0 0 0) ->
        Zoned.localTimeExists zone (MakeDate day (MakeTime 4 0 0 0)) ->
        Zoned.LocalTime zone (Zoned.getNextResetTime zone now None)
        = MakeDate day (MakeTime 4 0 0 0))
  /\ (forall tz, Zoned.fixedOffset zone tz ->
        forall t, Zoned.localTimeExists zone t).
Proof.
  split; [|split; [|split; [|split]]].
  - intros now custom Hvalid r H M today. subst r.
    rewrite Zoned_getNextResetTime_cases. fold H M.
    split; [|split].
    + intros h Hfirst. pose proof Hfirst as Hfind.
      apply findResetHour_Some in Hfind. rewrite Hfind.
      split; [reflexivity|]. intros Hexists.
      apply Zoned_on_the_hour; [|exact Hexists].
      destruct Hfirst as (pre & post & Hsched & _ & _).
      pose proof (schedule_all_valid custom Hvalid) as Hall.
      rewrite Hsched in Hall. apply Forall_app in Hall.
      destruct Hall as [_ Hall]. now inversion Hall.
    + intros Hnone Hnext first. pose proof Hnone as Hfind.
      apply findResetHour_None in Hfind. rewrite Hfind.
      assert (Hday : Day (Zoned.LocalTime zone
                            (Zoned.setDate_getDate_plus_1 zone now))
                     = today + 1).
      { unfold Zoned.setDate_getDate_plus_1.
        unfold Zoned.localTimeExists in Hnext.
        change (Day (Zoned.LocalTime zone now)) with today.
        rewrite Hnext. time_lia. }
      unfold Zoned.setHours. rewrite Hday.
      split; [reflexivity|]. intros Hexists.
      apply Zoned_on_the_hour; [|exact Hexists].
      now apply schedule_hd_valid.
    + destruct (findResetHour H M (schedule custom)) as [h|] eqn:Hfind.
      * left. exists h. now apply findResetHour_Some.
      * right. now apply findResetHour_None.
  - intros now day sec ms Hs Hms Hnow Hexists.
    destruct (MakeDate_fields day 10 30 sec ms) as (Hd & Hh & Hm & _);
      try lia.
    rewrite Zoned_getNextResetTime_cases.
    unfold Zoned.getHours, Zoned.getMinutes. rewrite Hnow, Hh, Hm.
    cbn [schedule].
    change (findResetHour 10 30 defaultResetHours) with (Some 14).
    cbv beta iota. unfold Zoned.setHours. rewrite Hnow, Hd. exact Hexists.
  - intros now day sec ms Hs Hms Hnow Hnext Hexists.
    destruct (MakeDate_fields day 23 30 sec ms) as (Hd & Hh & Hm & Htime);
      try lia.
    rewrite Zoned_getNextResetTime_cases.
    unfold Zoned.getHours, Zoned.getMinutes. rewrite Hnow, Hh, Hm.
    cbn [schedule].
    change (findResetHour 23 30 defaultResetHours) with (@None Z).
    cbv beta iota. cbn [hd defaultResetHours].
    unfold Zoned.setHours, Zoned.setDate_getDate_plus_1.
    rewrite Hnow, Hd, Htime. unfold Zoned.localTimeExists in Hnext.
    rewrite Hnext.
    destruct (MakeDate_fields (day + 1) 23 30 sec ms) as (Hd' & _);
      try lia.
    rewrite Hd'. exact Hexists.
  - intros now day Hnow Hexists.
    destruct (MakeDate_fields day 4 0 0 0) as (Hd & Hh & Hm & _); try lia.
    rewrite Zoned_getNextResetTime_cases.
    unfold Zoned.getHours, Zoned.getMinutes. rewrite Hnow, Hh, Hm.
    cbn [schedule].
    change (findResetHour 4 0 defaultResetHours) with (Some 4).
    cbv beta iota. unfold Zoned.setHours. rewrite Hnow, Hd. exact Hexists.
  - intros tz Hfixed t. now apply (fixedOffset_localTimeExists zone tz).
Qed.

(** C3 as worded does not hold where clocks change.  New York, 13 March
    2022, 01:30 local time, custom hour 2: the first pending hour of the
    schedule is 2, but 02:00 does not exist on that day, and the result
    reads back as 03:00. *)
Lemma getNextResetTime_skipped_hour :
  let zone := Zoned.newYorkSpring2022 in
  let now := 1647153000000 in
  let r := Zoned.getNextResetTime zone now (Some 2) in
  validCustomHour (Some 2)
  /\ Zoned.getHours zone now = 1
  /\ Zoned.getMinutes zone now = 30
  /\ firstPending 1 30 (schedule (Some 2)) 2
  /\ Zoned.localDay zone r = Zoned.localDay zone now
  /\ Zoned.getHours zone r = 3
  /\ Zoned.getHours zone r <> 2.
Proof.
  cbv zeta. split; [cbn; lia|].
  split; [vm_compute; reflexivity|].
  split; [vm_compute; reflexivity|].
  split.
  { exists [], []. split; [reflexivity|]. split; [constructor|].
    left. lia. }
  split; [vm_compute; reflexivity|].
  split; [vm_compute; reflexivity|].
  vm_compute. discriminate.
Qed.

(** New York at 01:30 on 13 March 2022, fixed schedule: the next reset is
    04:00 of that day, which exists; it is an hour and a half after
    [now], the clocks moving on an hour in between. *)
Lemma getNextResetTime_in_zone_witness :
  let zone := Zoned.newYorkSpring2022 in
  let now := 1647153000000 in
  Zoned.getHours zone (Zoned.getNextResetTime zone now None) = 4
  /\ Zoned.getMinutes zone (Zoned.getNextResetTime zone now None) = 0
  /\ Zoned.getNextResetTime zone now None = now + 5400000.
Proof.
  intros zone now.
  assert (Hvalid : validCustomHour None) by exact I.
  assert (Hfirst : firstPending (Zoned.getHours zone now)
                     (Zoned.getMinutes zone now) (schedule None) 4).
  { exists [], [9; 14; 18; 23]. split; [reflexivity|].
    split; [constructor|]. left. vm_compute. reflexivity. }
  assert (Hexists : Zoned.localTimeExists zone
                      (MakeDate (Zoned.localDay zone now)
                                (MakeTime 4 0 0 0)))
    by (vm_compute; reflexivity).
  destruct (proj1 (getNextResetTime_in_zone zone) now None Hvalid)
    as (Htoday & _).
  destruct (Htoday 4 Hfirst) as [_ Hfields].
  destruct (Hfields Hexists) as (_ & Hh & Hm & _).
  split; [exact Hh|]. split; [exact Hm|]. vm_compute. reflexivity.
Defined.

(** C10.  [getNextResetTime] can return a time before [now]: whenever
    [now]'s local hour is in the schedule, its minute is 0 and its
    seconds or milliseconds are not, the result is strictly earlier than
    [now]. *)
Theorem getNextResetTime_before_now (tz now : Z) (custom : option Z) :
  In (getHours tz now) (schedule custom) ->
  getMinutes tz now = 0 ->
  getSeconds tz now <> 0 \/ getMilliseconds tz now <> 0 ->
  getNextResetTime tz now custom < now.
Proof.
  intros Hin Hmin Hsub.
  assert (Hfind : findResetHour (getHours tz now) (getMinutes tz now)
                    (schedule custom) = Some (getHours tz now)).
  { rewrite Hmin. destruct custom as [h|]; cbn [schedule] in *.
    - destruct Hin as [<-|[]]. cbn [findResetHour].
      now rewrite Z.ltb_irrefl, Z.eqb_refl.
    - unfold defaultResetHours in *. cbn [In] in Hin.
      destruct Hin as [<-|[<-|[<-|[<-|[<-|[]]]]]]; reflexivity. }
  rewrite getNextResetTime_cases, Hfind.
  clear Hfind Hin. date_lia.
Qed.

(** 04:00:01.000 local time: the reset found is 04:00:00.000, one second
    earlier. *)
Lemma getNextResetTime_before_now_witness :
  getNextResetTime 0 (atLocal 0 19000 4 0 1 0) None
  < atLocal 0 19000 4 0 1 0.
Proof.
  apply (getNextResetTime_before_now 0 (atLocal 0 19000 4 0 1 0) None).
  - vm_compute. left. reflexivity.
  - vm_compute. reflexivity.
  - left. vm_compute. discriminate.
Defined.

(** ** The token limit *)

Lemma fold_right_max_init (l : list Z) (a x : Z) :
  fold_right Z.max (Z.max a x) l = Z.max x (fold_right Z.max a l).
Proof.
  induction l as [|y l IH]; cbn [fold_right]; [|rewrite IH]; lia.
Qed.

Lemma maxTokensStep_max (acc : Z) (b : Block) :
  maxTokensStep acc b
  = if completedBlock b then Z.max acc (totalTokens b) else acc.
Proof.
  unfold maxTokensStep, completedBlock.
  destruct (negb (truthy (isGap b)) && negb (truthy (isActive b)));
    [|reflexivity].
  rewrite or0_id, Z.gtb_ltb.
  destruct (Z.ltb_spec acc (totalTokens b)); lia.
Qed.

Lemma fold_maxTokensStep (bs : list Block) (acc : Z) :
  fold_left maxTokensStep bs acc
  = fold_right Z.max acc (completedTokens bs).
Proof.
  unfold completedTokens. revert acc.
  induction bs as [|b bs IH]; intros acc; cbn [fold_left List.filter];
    [reflexivity|].
  rewrite IH, maxTokensStep_max.
  destruct (completedBlock b); cbn [map fold_right]; [|reflexivity].
  apply fold_right_max_init.
Qed.

Example getTokenLimit_max5 : getTokenLimit "max5" None = 35000.
Proof. reflexivity. Qed.

Example getTokenLimit_no_completed_block :
  getTokenLimit "custom_max"
    (Some [mkBlock (Some 0) (Some 100) 5000 (Some true) None;
           mkBlock (Some 100) None 9000 None (Some true)])
  = 7000.
Proof. reflexivity. Qed.

(** The custom limit, from the largest count observed. *)
Lemma getTokenLimit_custom_max (bs : list Block) :
  getTokenLimit "custom_max" (Some bs)
  = if 0 <? maxObserved bs then maxObserved bs else 7000.
Proof.
  unfold getTokenLimit. cbn [String.eqb Ascii.eqb Bool.eqb].
  cbv zeta. rewrite fold_maxTokensStep. fold (maxObserved bs).
  now rewrite Z.gtb_ltb.
Qed.

Lemma maxObserved_isMaximum (history : list Block) (m : Z) :
  Forall (fun b => 0 <= totalTokens b) history ->
  isMaximum m (completedTokens history) ->
  maxObserved history = m.
Proof.
  intros Hnonneg [Hin Hall]. unfold maxObserved.
  assert (Hm : 0 <= m).
  { unfold completedTokens in Hin. apply in_map_iff in Hin.
    destruct Hin as (b & <- & Hb). apply filter_In in Hb.
    rewrite List.Forall_forall in Hnonneg. apply Hnonneg, (proj1 Hb). }
  induction (completedTokens history) as [|x l IH]; [destruct Hin|].
  cbn [fold_right]. inversion Hall as [|? ? Hx Hl]; subst.
  assert (Hbound : fold_right Z.max 0 l <= m).
  { clear IH Hin Hall. induction Hl; cbn; lia. }
  destruct Hin as [->|Hin]; [lia|].
  rewrite (IH Hin Hl). lia.
Qed.

Lemma limits_unknown (plan : string) :
  plan <> "pro"%string -> plan <> "max5"%string ->
  plan <> "max20"%string ->
  limits !! plan = None.
Proof.
  intros Hpro Hmax5 Hmax20. unfold limits.
  rewrite !lookup_insert_ne by congruence. apply lookup_empty.
Qed.

Lemma not_inherited_name (plan : string) :
  ~ In plan objectPrototypeNames ->
  existsb (String.eqb plan) objectPrototypeNames = false.
Proof.
  intros Hnot. apply not_true_iff_false. intros Hex.
  apply existsb_exists in Hex. destruct Hex as (name & Hin & Heq).
  apply String.eqb_eq in Heq. now subst name.
Qed.

(** On a plan that is not an inherited name, the function returns the
    number that [getTokenLimit] gives. *)
Lemma getTokenLimitResult_number (plan : string)
    (history : option (list Block)) :
  ~ In plan objectPrototypeNames ->
  getTokenLimitResult plan history = NumberValue (getTokenLimit plan history).
Proof.
  intros Hnot. unfold getTokenLimitResult, getTokenLimit, limitsGet.
  destruct (if String.eqb plan "custom_max" then history else None);
    [reflexivity|].
  destruct (limits !! plan) as [v|]; [reflexivity|].
  now rewrite (not_inherited_name plan Hnot).
Qed.

(** C4 (7000 for any unknown plan identifier) does not hold of the code
    for the names that the table inherits as an object: for a plan such
    as [toString], which is not a key of the table, [limits[plan]] is the
    inherited function, which is truthy, and the function returns it and
    not 7000.  For every other string the function returns a number:
    7000 for [pro], 35000 for [max5], 140000 for [max20], 7000 for every
    other plan that is not [custom_max], and for [custom_max] with a
    history (of non-negative token counts) the maximum [totalTokens] over
    the blocks that are neither a gap nor active, or 7000 when there is
    no such block or that maximum is zero. *)
Theorem getTokenLimit_inherited_name :
  limits !! "toString"%string = None
  /\ getTokenLimitResult "toString" None = InheritedValue "toString"
  /\ getTokenLimitResult "toString" None <> NumberValue 7000
  /\ (forall plan history,
        In plan objectPrototypeNames ->
        getTokenLimitResult plan history = InheritedValue plan)
  /\ (forall history,
        getTokenLimitResult "pro" history = NumberValue 7000
        /\ getTokenLimitResult "max5" history = NumberValue 35000
        /\ getTokenLimitResult "max20" history = NumberValue 140000)
  /\ (forall plan history,
        plan <> "pro"%string -> plan <> "max5"%string ->
        plan <> "max20"%string -> plan <> "custom_max"%string ->
        ~ In plan objectPrototypeNames ->
        getTokenLimitResult plan history = NumberValue 7000)
  /\ (forall history,
        Forall (fun b => 0 <= totalTokens b) history ->
        (completedTokens history = [] ->
         getTokenLimitResult "custom_max" (Some history) = NumberValue 7000)
        /\ (forall m, isMaximum m (completedTokens history) ->
              getTokenLimitResult "custom_max" (Some history)
              = NumberValue (if m =? 0 then 7000 else m))).
Proof.
  split; [|split; [|split; [|split; [|split; [|split]]]]].
  - apply limits_unknown; discriminate.
  - reflexivity.
  - discriminate.
  - intros plan history Hin. unfold objectPrototypeNames in Hin.
    cbn [In] in Hin.
    repeat (destruct Hin as [<-|Hin]; [reflexivity|]). destruct Hin.
  - intros history. repeat split; reflexivity.
  - intros plan history Hpro Hmax5 Hmax20 Hcustom Hnot.
    rewrite (getTokenLimitResult_number plan history Hnot).
    unfold getTokenLimit.
    apply String.eqb_neq in Hcustom. rewrite Hcustom.
    now rewrite limits_unknown.
  - intros history Hnonneg.
    assert (Hnum : getTokenLimitResult "custom_max" (Some history)
                   = NumberValue (getTokenLimit "custom_max" (Some history)))
      by reflexivity.
    rewrite Hnum, getTokenLimit_custom_max. split.
    + intros Hnone. unfold maxObserved. rewrite Hnone. reflexivity.
    + intros m Hmax.
      rewrite (maxObserved_isMaximum history m Hnonneg Hmax).
      assert (Hm : 0 <= m).
      { destruct Hmax as [Hin _]. unfold completedTokens in Hin.
        apply in_map_iff in Hin. destruct Hin as (b & <- & Hb).
        apply filter_In in Hb. rewrite List.Forall_forall in Hnonneg.
        apply Hnonneg, (proj1 Hb). }
      f_equal. destruct (Z.ltb_spec 0 m), (Z.eqb_spec m 0); lia.
Qed.

(** The custom limit of a history of a gap, two completed blocks and the
    active block is the larger completed count, not the active one. *)
Example getTokenLimit_custom_max_history :
  getTokenLimit "custom_max"
    (Some [mkBlock (Some 0) (Some 100) 99999 (Some true) None;
           mkBlock (Some 100) (Some 200) 12000 None None;
           mkBlock (Some 200) (Some 300) 8000 (Some false) (Some false);
           mkBlock (Some 300) None 50000 None (Some true)])
  = 12000.
Proof. reflexivity. Qed.

(** C9.  [getTokenLimit] with plan [custom_max] and no history gives
    7000: the plan is not in the table, as for an unknown plan. *)
Theorem getTokenLimit_custom_max_no_history :
  getTokenLimit "custom_max" None = 7000
  /\ limits !! "custom_max"%string = None.
Proof.
  split.
  - reflexivity.
  - apply limits_unknown; discriminate.
Qed.

(** ** The ratchet of the token limit *)

Lemma tick_limit (tz : Z) (plan : string) (resetHour : option Z)
    (limit : Z) (data : option CcusageData) (now : Z) :
  fst (tick tz plan resetHour limit data now) =
  match data with
  | Some (mkData (Some bs)) =>
    match findActiveBlock bs with
    | Some active => upgradeLimit plan limit (or0 (totalTokens active)) bs
    | None => limit
    end
  | _ => limit
  end.
Proof.
  unfold tick. destruct data as [[[bs|]]|]; cbn [blocks]; try reflexivity.
  destruct (findActiveBlock bs); reflexivity.
Qed.

Lemma tick_limit_observes (tz : Z) (plan : string) (resetHour : option Z)
    (limit : Z) (data : option CcusageData) (now : Z)
    (bs : list Block) (used : Z) :
  observes data bs used ->
  fst (tick tz plan resetHour limit data now)
  = upgradeLimit plan limit used bs.
Proof.
  intros (-> & active & Hactive & ->).
  now rewrite tick_limit, Hactive, or0_id.
Qed.

Lemma upgradeLimit_cases (plan : string) (limit used : Z)
    (bs : list Block) :
  let custom := getTokenLimit "custom_max" (Some bs) in
  (plan = "pro"%string /\ limit < used /\ limit < custom
   /\ upgradeLimit plan limit used bs = custom)
  \/ (~ (plan = "pro"%string /\ limit < used /\ limit < custom)
      /\ upgradeLimit plan limit used bs = limit).
Proof.
  intros custom. unfold upgradeLimit. fold custom.
  rewrite !Z.gtb_ltb.
  destruct (Z.ltb_spec limit used) as [Hused|Hused];
    destruct (String.eqb_spec plan "pro") as [Hplan|Hplan];
    destruct (Z.ltb_spec limit custom) as [Hcustom|Hcustom];
    cbn [andb];
    solve [ left; repeat split; assumption
          | right; split; [intros (? & ? & ?); (congruence || lia)
                          | reflexivity] ].
Qed.

Lemma tick_limit_le (tz : Z) (plan : string) (resetHour : option Z)
    (limit : Z) (data : option CcusageData) (now : Z) :
  limit <= fst (tick tz plan resetHour limit data now).
Proof.
  rewrite tick_limit. destruct data as [[[bs|]]|]; try lia.
  destruct (findActiveBlock bs) as [active|]; try lia.
  destruct (upgradeLimit_cases plan limit (or0 (totalTokens active)) bs)
    as [(_ & _ & Hlt & ->)|[_ ->]]; lia.
Qed.

Lemma runLimit_le (tz : Z) (plan : string) (resetHour : option Z)
    (passes : list (option CcusageData * Z)) (limit : Z) :
  limit <= runLimit tz plan resetHour limit passes.
Proof.
  unfold runLimit. revert limit.
  induction passes as [|pass passes IH]; intros limit; cbn [fold_left].
  - lia.
  - etransitivity; [|apply IH]. apply tick_limit_le.
Qed.

(** C6.  Over every sequence of passes the token limit never decreases.
    A pass changes it only when the plan is [pro], the active block's
    tokens exceed the limit and the limit derived for [custom_max] is
    strictly larger, and then the limit becomes that value.  Once raised,
    the limit stays where it is on any later snapshot whose largest
    observed count is the same, and on the same snapshot again. *)
Theorem tokenLimit_ratchet (tz : Z) (plan : string) (resetHour : option Z) :
  let next limit data now := fst (tick tz plan resetHour limit data now) in
  let run := runLimit tz plan resetHour in
  (forall limit data now, limit <= next limit data now)
  /\ (forall limit passes more,
        limit <= run limit passes
        /\ run limit passes <= run limit (passes ++ more))
  /\ (forall limit data now,
        next limit data now <> limit ->
        plan = "pro"%string
        /\ exists bs used,
             observes data bs used
             /\ limit < used
             /\ limit < getTokenLimit "custom_max" (Some bs)
             /\ next limit data now = getTokenLimit "custom_max" (Some bs))
  /\ (forall limit data now bs used,
        plan = "pro"%string -> observes data bs used ->
        limit < used -> limit < getTokenLimit "custom_max" (Some bs) ->
        next limit data now = getTokenLimit "custom_max" (Some bs))
  /\ (forall limit data now bs used data' now' bs' used',
        observes data bs used -> next limit data now <> limit ->
        observes data' bs' used' -> maxObserved bs' = maxObserved bs ->
        next (next limit data now) data' now' = next limit data now)
  /\ (forall limit data now now',
        next (next limit data now) data now' = next limit data now).
Proof.
  intros next run. subst next run. cbv beta.
  split; [|split; [|split; [|split; [|split]]]].
  - intros limit data now. apply tick_limit_le.
  - intros limit passes more. split; [apply runLimit_le|].
    unfold runLimit. rewrite fold_left_app. apply runLimit_le.
  - intros limit data now Hchanged. rewrite tick_limit in Hchanged.
    destruct data as [[[bs|]]|]; try contradiction.
    destruct (findActiveBlock bs) as [active|] eqn:Hactive;
      try contradiction.
    rewrite or0_id in Hchanged.
    assert (Hobs : observes (Some (mkData (Some bs))) bs
                            (totalTokens active)).
    { split; [reflexivity|]. now exists active. }
    rewrite (tick_limit_observes _ _ _ _ _ _ _ _ Hobs).
    destruct (upgradeLimit_cases plan limit (totalTokens active) bs)
      as [(Hplan & Hused & Hcustom & Heq)|[_ Heq]];
      [|contradiction].
    split; [exact Hplan|]. exists bs, (totalTokens active).
    split; [exact Hobs|]. repeat split; assumption.
  - intros limit data now bs used Hplan Hobs Hused Hcustom.
    rewrite (tick_limit_observes _ _ _ _ _ _ _ _ Hobs).
    destruct (upgradeLimit_cases plan limit used bs)
      as [(_ & _ & _ & Heq)|[Hnot _]]; [exact Heq|].
    exfalso. apply Hnot. repeat split; assumption.
  - intros limit data now bs used data' now' bs' used'
           Hobs Hchanged Hobs' Hsame.
    rewrite (tick_limit_observes _ _ _ _ _ _ _ _ Hobs) in *.
    rewrite (tick_limit_observes _ _ _ _ _ _ _ _ Hobs').
    destruct (upgradeLimit_cases plan limit used bs)
      as [(_ & _ & _ & Heq)|[_ Heq]]; [|contradiction].
    rewrite Heq.
    destruct (upgradeLimit_cases plan
                (getTokenLimit "custom_max" (Some bs)) used' bs')
      as [(_ & _ & Hlt & _)|[_ Heq']]; [|exact Heq'].
    rewrite !getTokenLimit_custom_max, Hsame in Hlt. lia.
  - intros limit data now now'. rewrite !tick_limit.
    destruct data as [[[bs|]]|]; try reflexivity.
    destruct (findActiveBlock bs) as [active|]; try reflexivity.
    set (used := or0 (totalTokens active)).
    destruct (upgradeLimit_cases plan limit used bs)
      as [(_ & _ & _ & Heq)|[_ Heq]]; rewrite Heq.
    + destruct (upgradeLimit_cases plan
                  (getTokenLimit "custom_max" (Some bs)) used bs)
        as [(_ & _ & Hlt & _)|[_ Heq']]; [lia | exact Heq'].
    + exact Heq.
Qed.

(** A run on plan [pro]: a completed block of 20000 tokens and an active
    block of 8000 raise the limit from 7000 to 20000; the same history
    with 9000 and then 25000 active tokens leaves it at 20000. *)
Lemma tokenLimit_ratchet_witness :
  let history used :=
    Some (mkData (Some [mkBlock (Some 0) (Some 1000) 20000 None None;
                        mkBlock (Some 2000) None used None (Some true)])) in
  fst (tick 0 "pro" None 7000 (history 8000) 3000) = 20000
  /\ fst (tick 0 "pro" None
            (fst (tick 0 "pro" None 7000 (history 8000) 3000))
            (history 25000) 6000)
     = fst (tick 0 "pro" None 7000 (history 8000) 3000).
Proof.
  intros history.
  pose (bs used := [mkBlock (Some 0) (Some 1000) 20000 None None;
                    mkBlock (Some 2000) None used None (Some true)]).
  assert (Hobs : forall used, observes (history used) (bs used) used).
  { intros used. split; [reflexivity|].
    exists (mkBlock (Some 2000) None used None (Some true)).
    split; reflexivity. }
  destruct (tokenLimit_ratchet 0 "pro" None)
    as (_ & _ & _ & Hraise & Hstay & _).
  split.
  - apply (Hraise 7000 (history 8000) 3000 (bs 8000) 8000 eq_refl
                  (Hobs 8000)); vm_compute; reflexivity.
  - apply (Hstay 7000 (history 8000) 3000 (bs 8000) 8000
                 (history 25000) 6000 (bs 25000) 25000
                 (Hobs 8000)); [|exact (Hobs 25000)|reflexivity].
    vm_compute. discriminate.
Defined.

(** ** The reset hour of the menu *)

(** C5 (with a custom reset hour configured, the reset time of a pass
    comes from the single-hour schedule) does not hold of [main], which
    calls [getNextResetTime(currentTime)] with one argument: the reset
    time of a pass is the one of the fixed daily sequence, whatever reset
    hour the menu returned.  With the custom hour 7 and 10:30 local time,
    the pass shows 14:00 of the same day, where the single-hour schedule
    gives 07:00 of the next day. *)
Theorem tick_reset_time_ignores_custom_hour :
  (forall tz plan resetHour limit data now,
     tick tz plan resetHour limit data now
     = tick tz plan None limit data now)
  /\ (forall tz plan resetHour limit data now d,
        snd (tick tz plan resetHour limit data now) = Shown d ->
        d_resetTime d = getNextResetTime tz now None)
  /\ (let now := atLocal 0 19000 10 30 0 0 in
      let data :=
        Some (mkData (Some [mkBlock (Some (now - 600000)) None 1200 None
                                    (Some true)])) in
      exists d,
        snd (tick 0 "pro" (Some 7) 7000 data now) = Shown d
        /\ d_resetTime d = atLocal 0 19000 14 0 0 0
        /\ getHours 0 (d_resetTime d) = 14
        /\ getNextResetTime 0 now (Some 7) = atLocal 0 19001 7 0 0 0).
Proof.
  split; [|split].
  - reflexivity.
  - intros tz plan resetHour limit data now d. unfold tick.
    destruct data as [[[bs|]]|]; cbn [blocks snd]; try discriminate.
    destruct (findActiveBlock bs); cbn [snd]; [|discriminate].
    intros [= <-]. reflexivity.
  - cbv zeta. eexists. split; [reflexivity|].
    repeat split; vm_compute; reflexivity.
Qed.

(** * Further properties of the code *)

(** ** How far away the next reset is *)

Lemma getHours_range (tz t : Z) : 0 <= getHours tz t <= 23.
Proof. date_lia. Qed.

Ltac split_tests :=
  repeat match goal with
         | |- context [?a <? ?b] => destruct (Z.ltb_spec a b)
         | |- context [?a =? ?b] => destruct (Z.eqb_spec a b)
         end; cbn [orb andb hd].

(** The hour the loop finds is at most five hours ahead in the fixed
    schedule; it finds none only in the last hour of the day. *)
Lemma findResetHour_default_gap (H M : Z) :
  0 <= H <= 23 ->
  match findResetHour H M defaultResetHours with
  | Some h => H <= h <= H + 5 /\ (h = H -> M = 0)
  | None => H = 23 /\ M <> 0
  end.
Proof.
  intros HH. unfold defaultResetHours. cbn [findResetHour].
  split_tests; lia.
Qed.

Lemma findResetHour_custom_gap (H M h : Z) :
  0 <= H <= 23 -> 0 <= h <= 23 ->
  match findResetHour H M [h] with
  | Some h' => h' = h /\ H <= h /\ (h = H -> M = 0)
  | None => h <= H /\ (h = H -> M <> 0)
  end.
Proof.
  intros HH Hh. cbn [findResetHour]. split_tests; lia.
Qed.

Lemma reset_distance_fixed (tz now : Z) (custom : option Z) :
  validCustomHour custom ->
  let r := getNextResetTime tz now custom in
  now - 60000 < r
  /\ (r < now -> getMinutes tz now = 0)
  /\ r <= now + 86400000
  /\ (custom = None -> r <= now + 18000000).
Proof.
  intros Hvalid r. subst r. rewrite getNextResetTime_cases.
  pose proof (getHours_range tz now) as HH.
  destruct custom as [h|]; cbn [schedule validCustomHour] in *.
  - pose proof (findResetHour_custom_gap (getHours tz now)
                  (getMinutes tz now) h HH Hvalid) as Hgap.
    destruct (findResetHour (getHours tz now) (getMinutes tz now) [h])
      as [h'|]; cbn [hd];
      (split; [|split; [|split; [|discriminate]]]); date_lia.
  - pose proof (findResetHour_default_gap (getHours tz now)
                  (getMinutes tz now) HH) as Hgap.
    destruct (findResetHour (getHours tz now) (getMinutes tz now)
                defaultResetHours) as [h|];
      cbn [hd defaultResetHours];
      (split; [|split; [|split; [|intros _]]]); date_lia.
Qed.

(** X1.  In a time zone whose offset from UTC never changes, the reset
    time that [getNextResetTime] returns is less than a minute before
    [now] at the earliest, and before [now] only when [now]'s minute is
    0; it is at most 24 hours after [now] with a custom hour, and at most
    5 hours after [now] with the fixed schedule. *)
Theorem getNextResetTime_distance (zone : Zoned.TimeZone) (tz now : Z)
    (custom : option Z) :
  Zoned.fixedOffset zone tz ->
  validCustomHour custom ->
  let r := Zoned.getNextResetTime zone now custom in
  now - 60000 < r
  /\ (r < now -> Zoned.getMinutes zone now = 0)
  /\ r <= now + 86400000
  /\ (custom = None -> r <= now + 18000000).
Proof.
  intros Hfixed Hvalid r. subst r.
  rewrite (fixedOffset_getNextResetTime zone tz now custom Hfixed),
          (fixedOffset_getMinutes zone tz now Hfixed).
  now apply reset_distance_fixed.
Qed.

(** 18:01 local time, in a zone that is always one hour east of UTC, with
    the fixed schedule: the next reset is 23:00, one minute less than
    five hours away. *)
Lemma getNextResetTime_distance_witness :
  let zone := Zoned.fixedZone 3600000 in
  let now := atLocal 3600000 19000 18 1 0 0 in
  Zoned.getNextResetTime zone now None <= now + 18000000
  /\ Zoned.getNextResetTime zone now None = now + 17940000.
Proof.
  intros zone now. split; [|vm_compute; reflexivity].
  exact (proj2 (proj2 (proj2
           (getNextResetTime_distance zone 3600000 now None
              (fixedZone_fixedOffset 3600000) I)))
           eq_refl).
Defined.

(** Where the clocks change the distances change with them.  New York,
    5 November 2022, 23:01 local time, the night the clocks go back an
    hour: the next reset of the fixed schedule, 04:00, is 5 hours and 59
    minutes away. *)
Example clock_change_reset_distance :
  let zone := Zoned.newYorkAutumn2022 in
  let now := 1667703660000 in
  Zoned.getHours zone now = 23
  /\ Zoned.getMinutes zone now = 1
  /\ Zoned.getHours zone (Zoned.getNextResetTime zone now None) = 4
  /\ Zoned.getNextResetTime zone now None = now + 21540000.
Proof. vm_compute. repeat split; reflexivity. Qed.

Lemma findResetHour_In (H M : Z) (hours : list Z) (h : Z) :
  findResetHour H M hours = Some h -> In h hours.
Proof.
  intros Hfind. apply findResetHour_Some in Hfind.
  destruct Hfind as (pre & post & -> & _). apply in_or_app. right. now left.
Qed.

(** At a scheduled hour sharp, the loop finds that hour. *)
Lemma findResetHour_on_the_hour (custom : option Z) (h : Z) :
  In h (schedule custom) ->
  findResetHour h 0 (schedule custom) = Some h.
Proof.
  destruct custom as [c|]; cbn [schedule]; intros Hin.
  - destruct Hin as [<-|[]]. cbn [findResetHour].
    now rewrite Z.ltb_irrefl, Z.eqb_refl.
  - unfold defaultResetHours in *. cbn [In] in Hin.
    destruct Hin as [<-|[<-|[<-|[<-|[<-|[]]]]]]; reflexivity.
Qed.

Lemma reset_fixpoint_fixed (tz now : Z) (custom : option Z) :
  validCustomHour custom ->
  getNextResetTime tz (getNextResetTime tz now custom) custom
  = getNextResetTime tz now custom.
Proof.
  intros Hvalid.
  assert (Hshape : exists t h,
             getNextResetTime tz now custom = setHours tz t h 0 0 0
             /\ In h (schedule custom)).
  { rewrite getNextResetTime_cases.
    destruct (findResetHour (getHours tz now) (getMinutes tz now)
                (schedule custom)) as [h|] eqn:Hfind.
    - exists now, h. split; [reflexivity|].
      now apply findResetHour_In in Hfind.
    - eexists _, _. split; [reflexivity|].
      destruct custom; cbn; auto. }
  destruct Hshape as (t & h & -> & Hin).
  assert (Hh : 0 <= h <= 23).
  { pose proof (schedule_all_valid custom Hvalid) as Hall.
    rewrite List.Forall_forall in Hall. now apply Hall. }
  destruct (setHours_hour tz t h Hh) as [_ Hhour].
  destruct (setHours_zeroes tz t h) as (Hmin & _ & _).
  rewrite (getNextResetTime_cases tz (setHours tz t h 0 0 0)).
  rewrite Hhour, Hmin, (findResetHour_on_the_hour custom h Hin).
  clear Hhour Hmin Hin. date_lia.
Qed.

(** X2.  In any time zone, a time that reads as a scheduled hour sharp,
    and that is the time [UTC] gives for its local time, is a fixed point
    of [getNextResetTime].  In a zone whose offset never changes, the
    time [getNextResetTime] returns is such a time: asked for the next
    reset at the very time it returned, it returns that time again. *)
Theorem getNextResetTime_fixpoint (zone : Zoned.TimeZone)
    (custom : option Z) :
  (forall r,
     In (Zoned.getHours zone r) (schedule custom) ->
     Zoned.getMinutes zone r = 0 ->
     Zoned.getSeconds zone r = 0 ->
     Zoned.getMilliseconds zone r = 0 ->
     Zoned.UTC zone (Zoned.LocalTime zone r) = r ->
     Zoned.getNextResetTime zone r custom = r)
  /\ (forall tz now,
        Zoned.fixedOffset zone tz ->
        validCustomHour custom ->
        Zoned.getNextResetTime zone
          (Zoned.getNextResetTime zone now custom) custom
        = Zoned.getNextResetTime zone now custom).
Proof.
  split.
  - intros r Hin Hmin Hsec Hms Hutc.
    rewrite Zoned_getNextResetTime_cases, Hmin,
            (findResetHour_on_the_hour custom _ Hin).
    unfold Zoned.setHours.
    unfold Zoned.getHours, Zoned.getMinutes, Zoned.getSeconds,
           Zoned.getMilliseconds in *.
    set (l := Zoned.LocalTime zone r) in *.
    assert (Hl : MakeDate (Day l) (MakeTime (HourFromTime l) 0 0 0) = l)
      by (clear Hin Hutc; time_lia).
    rewrite Hl. exact Hutc.
  - intros tz now Hfixed Hvalid.
    rewrite !(fixedOffset_getNextResetTime zone tz _ custom Hfixed).
    now apply reset_fixpoint_fixed.
Qed.

(** 23:30 local time, in a zone that is always one hour east of UTC: the
    next reset is 04:00 of the next day, and the next reset at that time
    is that time. *)
Lemma getNextResetTime_fixpoint_witness :
  let zone := Zoned.fixedZone 3600000 in
  let now := atLocal 3600000 19000 23 30 0 0 in
  Zoned.getNextResetTime zone now None = atLocal 3600000 19001 4 0 0 0
  /\ Zoned.getNextResetTime zone
       (Zoned.getNextResetTime zone now None) None
     = Zoned.getNextResetTime zone now None.
Proof.
  intros zone now. split; [vm_compute; reflexivity|].
  exact (proj2 (getNextResetTime_fixpoint zone None) 3600000 now
           (fixedZone_fixedOffset 3600000) I).
Defined.

(** Where a clock change skips the hour aimed at, the time returned is
    not a fixed point.  New York, 13 March 2022, 01:30 local time, custom
    hour 2: the reset time reads 03:00, and the next reset at that time
    is 02:00 of the next day, 23 hours later. *)
Example clock_change_reset_moves :
  let zone := Zoned.newYorkSpring2022 in
  let r := Zoned.getNextResetTime zone 1647153000000 (Some 2) in
  Zoned.getHours zone r = 3
  /\ Zoned.getNextResetTime zone r (Some 2) = r + 82800000.
Proof. vm_compute. split; reflexivity. Qed.

(** ** The token limit is positive *)

Lemma limits_values (plan : string) (v : Z) :
  limits !! plan = Some v -> v = 7000 \/ v = 35000 \/ v = 140000.
Proof.
  unfold limits. intros Hlook.
  destruct (decide (plan = "pro"%string)) as [->|Hpro];
    [rewrite lookup_insert_eq in Hlook; injection Hlook; auto|].
  rewrite lookup_insert_ne in Hlook by congruence.
  destruct (decide (plan = "max5"%string)) as [->|Hmax5];
    [rewrite lookup_insert_eq in Hlook; injection Hlook; auto|].
  rewrite lookup_insert_ne in Hlook by congruence.
  destruct (decide (plan = "max20"%string)) as [->|Hmax20];
    [rewrite lookup_insert_eq in Hlook; injection Hlook; auto|].
  rewrite lookup_insert_ne in Hlook by congruence.
  rewrite lookup_empty in Hlook. discriminate.
Qed.

Lemma getTokenLimit_pos (plan : string) (history : option (list Block)) :
  0 < getTokenLimit plan history.
Proof.
  unfold getTokenLimit.
  destruct (if String.eqb plan "custom_max" then history else None)
    as [bs|].
  - cbv zeta. rewrite Z.gtb_ltb.
    destruct (Z.ltb_spec 0 (fold_left maxTokensStep bs 0)); lia.
  - destruct (limits !! plan) as [v|] eqn:Hlook; [|lia].
    apply limits_values in Hlook.
    destruct (Z.eqb_spec v 0); lia.
Qed.

Lemma initialTokenLimit_pos (plan : string)
    (initialData : option CcusageData) :
  0 < initialTokenLimit plan initialData.
Proof.
  unfold initialTokenLimit.
  destruct (String.eqb plan "custom_max");
    [destruct initialData as [[[bs|]]|]; cbn [blocks]|];
    apply getTokenLimit_pos.
Qed.

(** X3.  For every plan that is not a name inherited from
    [Object.prototype] (so for every plan of the menu) and every history,
    also one with zero or negative counts, [getTokenLimit] returns a
    positive number; so the limit [main] starts with is positive and
    stays positive in every pass of every run, and the usage percentage
    of a pass that shows something is always [tokensUsed / tokenLimit *
    100], never the 0 of the guard's other branch. *)
Theorem tokenLimit_always_positive (plan : string) :
  ~ In plan objectPrototypeNames ->
  (forall history,
     exists n, getTokenLimitResult plan history = NumberValue n /\ 0 < n)
  /\ (forall tz resetHour initialData passes,
        0 < runLimit tz plan resetHour
              (initialTokenLimit plan initialData) passes)
  /\ (forall tz resetHour initialData passes data now d,
        snd (tick tz plan resetHour
               (runLimit tz plan resetHour
                  (initialTokenLimit plan initialData) passes)
               data now) = Shown d ->
        0 < d_tokenLimit d
        /\ d_usagePercentage d
           = (inject_Z (d_tokensUsed d) / inject_Z (d_tokenLimit d) * 100)%Q).
Proof.
  intros Hplan. split.
  { intros history. exists (getTokenLimit plan history).
    split; [now apply getTokenLimitResult_number | apply getTokenLimit_pos]. }
  assert (Hrun : forall tz resetHour initialData passes,
             0 < runLimit tz plan resetHour
                   (initialTokenLimit plan initialData) passes).
  { intros tz resetHour initialData passes.
    pose proof (initialTokenLimit_pos plan initialData).
    pose proof (runLimit_le tz plan resetHour passes
                  (initialTokenLimit plan initialData)). lia. }
  split; [exact Hrun|].
  intros tz resetHour initialData passes data now d.
  specialize (Hrun tz resetHour initialData passes).
  set (limit := runLimit tz plan resetHour
                  (initialTokenLimit plan initialData) passes) in *.
  pose proof (tick_limit_le tz plan resetHour limit data now) as Hle.
  unfold tick in *.
  destruct data as [[[bs|]]|]; cbn [blocks snd fst] in *; try discriminate.
  destruct (findActiveBlock bs) as [active|]; cbn [snd fst] in *;
    [|discriminate].
  intros [= <-]. cbn [d_tokenLimit d_usagePercentage d_tokensUsed].
  split; [lia|].
  rewrite Z.gtb_ltb.
  destruct (Z.ltb_spec 0
              (upgradeLimit plan limit (or0 (totalTokens active)) bs));
    [reflexivity | lia].
Qed.

(** Plan [custom_max] with a history whose only completed block holds no
    tokens: the limit is 7000. *)
Lemma tokenLimit_always_positive_witness :
  exists n,
    getTokenLimitResult "custom_max"
      (Some [mkBlock (Some 0) (Some 100) 0 None None]) = NumberValue n
    /\ 0 < n.
Proof.
  apply (proj1 (tokenLimit_always_positive "custom_max"
                  ltac:(vm_compute; intuition discriminate))).
Defined.

(** ** The burn-rate history *)

Lemma lastN_all {A : Type} (n : nat) (l : list A) :
  (length l <= n)%nat -> lastN n l = l.
Proof.
  intros Hlen. unfold lastN.
  replace (length l - n)%nat with 0%nat by lia. reflexivity.
Qed.

Lemma lastN_length {A : Type} (n : nat) (l : list A) :
  length (lastN n l) = Nat.min n (length l).
Proof. unfold lastN. rewrite length_skipn. lia. Qed.

Lemma lastN_app_lastN {A : Type} (n : nat) (l l' : list A) :
  lastN n (lastN n l ++ l') = lastN n (l ++ l').
Proof.
  destruct (Nat.le_gt_cases (length l) n) as [Hle|Hgt].
  - now rewrite (lastN_all n l Hle).
  - unfold lastN at 1 3. rewrite !length_app, lastN_length.
    replace (Nat.min n (length l) + length l' - n)%nat
      with (length l') by lia.
    replace (length l + length l' - n)%nat
      with (length l' + (length l - n))%nat by lia.
    rewrite <- skipn_skipn. f_equal. unfold lastN.
    rewrite skipn_app.
    replace (length l - n - length l)%nat with 0%nat by lia.
    reflexivity.
Qed.

Lemma recordBurnRate_lastN (history : list Q) (rate : Q) :
  (length history <= 120)%nat ->
  recordBurnRate history rate = lastN 120 (history ++ [rate]).
Proof.
  intros Hlen. unfold recordBurnRate. cbv zeta. rewrite Z.gtb_ltb.
  destruct (Z.ltb_spec 120 (Z.of_nat (length (history ++ [rate]))))
    as [Hfull|Hroom].
  - rewrite length_app in Hfull. cbn [length] in Hfull.
    unfold lastN. rewrite length_app. cbn [length].
    replace (length history + 1 - 120)%nat with 1%nat by lia.
    reflexivity.
  - symmetry. apply lastN_all. lia.
Qed.

Lemma tickState_history (tz : Z) (plan : string) (resetHour : option Z)
    (state : Z * list Q) (data : option CcusageData) (now : Z) :
  snd (tickState tz plan resetHour state data now)
  = match passBurnRate (data, now) with
    | Some rate => recordBurnRate (snd state) rate
    | None => snd state
    end.
Proof.
  unfold tickState, passBurnRate, tick. cbn [fst snd].
  destruct data as [[[bs|]]|]; cbn [blocks snd]; try reflexivity.
  destruct (findActiveBlock bs); reflexivity.
Qed.

Lemma runState_history (tz : Z) (plan : string) (resetHour : option Z)
    (passes : list (option CcusageData * Z)) (state : Z * list Q) :
  (length (snd state) <= 120)%nat ->
  snd (runState tz plan resetHour state passes)
  = lastN 120 (snd state ++ recordedRates passes).
Proof.
  unfold runState. revert state.
  induction passes as [|pass passes IH]; intros state Hlen;
    cbn [fold_left recordedRates flat_map].
  - rewrite app_nil_r. symmetry. now apply lastN_all.
  - fold (recordedRates passes).
    destruct pass as [data now]. cbn [fst snd].
    rewrite IH; rewrite tickState_history.
    + destruct (passBurnRate (data, now)) as [rate|].
      * rewrite recordBurnRate_lastN by exact Hlen.
        rewrite lastN_app_lastN, <- app_assoc. reflexivity.
      * reflexivity.
    + destruct (passBurnRate (data, now)) as [rate|]; [|exact Hlen].
      rewrite recordBurnRate_lastN by exact Hlen.
      rewrite lastN_length. lia.
Qed.

(** X4.  The burn-rate history is a queue of at most 120 samples: after
    any run that starts with an empty history it holds the burn rates of
    the passes that showed something, the latest 120 of them, oldest
    first; passes that fail to fetch or find no active block add
    nothing. *)
Theorem burnRateHistory_last_120 (tz : Z) (plan : string)
    (resetHour : option Z) (tokenLimit : Z)
    (passes : list (option CcusageData * Z)) :
  let history := snd (runState tz plan resetHour (tokenLimit, []) passes) in
  history = lastN 120 (recordedRates passes)
  /\ (length history <= 120)%nat
  /\ length history = Nat.min 120 (length (recordedRates passes)).
Proof.
  intros history. subst history.
  rewrite runState_history by (cbn; lia). cbn [snd app].
  rewrite lastN_length. repeat split. lia.
Qed.

(** ** The progress bars *)

Lemma Qfloor_ge_iff (z : Z) (q : Q) : z <= Qfloor q <-> (inject_Z z <= q)%Q.
Proof.
  split.
  - intros H. apply Qle_trans with (inject_Z (Qfloor q)); [|apply Qfloor_le].
    now rewrite <- Zle_Qle.
  - intros H. apply Qfloor_resp_le in H. now rewrite Qfloor_Z in H.
Qed.

Lemma Qfloor_lt_iff (z : Z) (q : Q) : Qfloor q < z <-> (q < inject_Z z)%Q.
Proof.
  split.
  - intros H. apply Qnot_le_lt. intros Hle. apply Qfloor_ge_iff in Hle. lia.
  - intros H. apply Z.nle_gt. intros Hle. apply Qfloor_ge_iff in Hle.
    apply (Qlt_not_le _ _ H Hle).
Qed.

Lemma String_repeat_throws (s : string) (count : Z) :
  String_repeat s count = ThrowsRangeError <-> count < 0.
Proof.
  unfold String_repeat.
  destruct (Z.ltb_spec count 0); split; intros;
    try lia; try discriminate; reflexivity.
Qed.


Lemma Qdiv100_lt (a b : Q) : (a / 100 < b)%Q <-> (a < b * 100)%Q.
Proof.
  destruct a as [na da], b as [nb db].
  unfold Qlt, Qdiv, Qmult, Qinv. cbn. rewrite !Pos2Z.inj_mul. lia.
Qed.

Lemma Qdiv100_le (a b : Q) : (b <= a / 100)%Q <-> (b * 100 <= a)%Q.
Proof.
  destruct a as [na da], b as [nb db].
  unfold Qle, Qdiv, Qmult, Qinv. cbn. rewrite !Pos2Z.inj_mul. lia.
Qed.

Lemma filled_out_of_range (percentage : Q) (width : Z) :
  let filled := Qfloor (inject_Z width * percentage / 100) in
  (filled < 0 \/ width - filled < 0)
  <-> ((inject_Z width * percentage < 0)%Q
       \/ (100 * (inject_Z width + 1) <= inject_Z width * percentage)%Q).
Proof.
  intros filled. subst filled.
  set (area := (inject_Z width * percentage)%Q).
  assert (H1 : Qfloor (area / 100) < 0 <-> (area < 0)%Q).
  { rewrite Qfloor_lt_iff, Qdiv100_lt. now rewrite Qmult_0_l. }
  assert (H2 : width - Qfloor (area / 100) < 0
               <-> (100 * (inject_Z width + 1) <= area)%Q).
  { transitivity (width + 1 <= Qfloor (area / 100)); [lia|].
    rewrite Qfloor_ge_iff, Qdiv100_le, inject_Z_plus.
    now rewrite (Qmult_comm 100). }
  tauto.
Qed.


Lemma createCompactProgressBar_throws (percentage : Q) (width : Z) :
  createCompactProgressBar percentage width = ThrowsRangeError
  <-> ((inject_Z width * percentage < 0)%Q
       \/ (100 * (inject_Z width + 1) <= inject_Z width * percentage)%Q).
Proof.
  rewrite <- filled_out_of_range. cbv zeta.
  unfold createCompactProgressBar. cbv zeta.
  set (filled := Qfloor (inject_Z width * percentage / 100)).
  pose proof (String_repeat_throws "█" filled) as Hg.
  pose proof (String_repeat_throws "░" (width - filled)) as Hr.
  destruct (String_repeat "█" filled),
           (String_repeat "░" (width - filled));
    split; intros H; try discriminate; try reflexivity; try tauto.
  all: destruct H as [H|H]; [apply Hg in H|apply Hr in H]; discriminate.
Qed.

Lemma createTokenProgressBar_throws (percentage : Q) (width : Z) :
  createTokenProgressBar percentage width = ThrowsRangeError
  <-> ((inject_Z width * percentage < 0)%Q
       \/ (100 * (inject_Z width + 1) <= inject_Z width * percentage)%Q).
Proof.
  rewrite <- filled_out_of_range. cbv zeta.
  unfold createTokenProgressBar. cbv zeta.
  set (filled := Qfloor (inject_Z width * percentage / 100)).
  pose proof (String_repeat_throws "█" filled) as Hg.
  pose proof (String_repeat_throws "░" (width - filled)) as Hr.
  destruct (String_repeat "█" filled),
           (String_repeat "░" (width - filled));
    split; intros H; try discriminate; try reflexivity; try tauto.
  all: destruct H as [H|H]; [apply Hg in H|apply Hr in H]; discriminate.
Qed.

Lemma usage_out_of_range (width used limit : Z) :
  0 < width -> 0 < limit ->
  let percentage := (inject_Z used / inject_Z limit * 100)%Q in
  ((inject_Z width * percentage < 0)%Q
   \/ (100 * (inject_Z width + 1) <= inject_Z width * percentage)%Q)
  <-> (used < 0 \/ (width + 1) * limit <= width * used).
Proof.
  intros Hw Hl percentage. subst percentage.
  destruct limit as [|L|L]; try lia.
  unfold Qlt, Qle, Qdiv, Qmult, Qplus, Qinv, inject_Z. cbn.
  rewrite ?Pos2Z.inj_mul. nia.
Qed.

Lemma createCompactProgressBar_returns (percentage : Q) (width : Z)
    (bar : string) :
  createCompactProgressBar percentage width = Returns bar ->
  exists filled,
    0 <= filled <= width
    /\ bar = ("[" ++ sgr "92" ++ repeatString "█" (Z.to_nat filled)
              ++ sgr "91" ++ repeatString "░" (Z.to_nat (width - filled))
              ++ sgr "0" ++ "]")%string.
Proof.
  unfold createCompactProgressBar, String_repeat. cbv zeta.
  set (filled := Qfloor (inject_Z width * percentage / 100)).
  destruct (Z.ltb_spec filled 0); [discriminate|].
  destruct (Z.ltb_spec (width - filled) 0); [discriminate|].
  intros [= <-]. exists filled. split; [lia | reflexivity].
Qed.

(** X5.  [createCompactProgressBar] and [createTokenProgressBar] throw a
    [RangeError] exactly when the percentage is out of range for the
    width: when [width * percentage] is negative or at least
    [100 * (width + 1)]; with the default width 20 of the compact bar,
    when the percentage is negative or at least 105.  A compact bar that
    is returned has exactly [width] cells, filled ones then empty
    ones. *)
Theorem progress_bar_range (percentage : Q) (width : Z) :
  let outOfRange :=
    (inject_Z width * percentage < 0)%Q
    \/ (100 * (inject_Z width + 1) <= inject_Z width * percentage)%Q in
  (createCompactProgressBar percentage width = ThrowsRangeError
   <-> outOfRange)
  /\ (createTokenProgressBar percentage width = ThrowsRangeError
      <-> outOfRange)
  /\ (createCompactProgressBar percentage 20 = ThrowsRangeError
      <-> (percentage < 0)%Q \/ (105 <= percentage)%Q)
  /\ (forall bar,
        createCompactProgressBar percentage width = Returns bar ->
        exists filled empty,
          0 <= filled /\ 0 <= empty /\ filled + empty = width
          /\ bar = ("[" ++ sgr "92" ++ repeatString "█" (Z.to_nat filled)
                    ++ sgr "91" ++ repeatString "░" (Z.to_nat empty)
                    ++ sgr "0" ++ "]")%string).
Proof.
  cbv zeta. split; [|split; [|split]].
  - apply createCompactProgressBar_throws.
  - apply createTokenProgressBar_throws.
  - rewrite createCompactProgressBar_throws.
    destruct percentage as [n d].
    unfold Qlt, Qle, Qmult, Qplus, inject_Z. cbn. lia.
  - intros bar Hbar.
    destruct (createCompactProgressBar_returns _ _ _ Hbar)
      as (filled & Hrange & ->).
    exists filled, (width - filled). repeat split; lia.
Qed.

(** ** A pass with more tokens used than the bar has room for *)

(** X6.  In a pass that shows something (the limit being positive, as it
    always is), the progress bar of the first copy of [main] throws a
    [RangeError] exactly when the tokens used are at least 105% of the
    token limit (or negative); the bar of the second copy exactly when
    they are at least 102% of it in verbose mode, and at least 16/15 of
    it in minimal mode. *)
Theorem pass_progress_bar_throws (tz : Z) (plan : string)
    (resetHour : option Z) (limit : Z) (data : option CcusageData)
    (now : Z) (d : Display) :
  0 < limit ->
  snd (tick tz plan resetHour limit data now) = Shown d ->
  (passCompactProgressBar d = ThrowsRangeError
   <-> d_tokensUsed d < 0 \/ 21 * d_tokenLimit d <= 20 * d_tokensUsed d)
  /\ (passTokenProgressBar "verbose" d = ThrowsRangeError
      <-> d_tokensUsed d < 0 \/ 51 * d_tokenLimit d <= 50 * d_tokensUsed d)
  /\ (passTokenProgressBar "minimal" d = ThrowsRangeError
      <-> d_tokensUsed d < 0 \/ 16 * d_tokenLimit d <= 15 * d_tokensUsed d).
Proof.
  intros Hlimit Hshown.
  assert (Hd : 0 < d_tokenLimit d
               /\ d_usagePercentage d
                  = (inject_Z (d_tokensUsed d) / inject_Z (d_tokenLimit d)
                     * 100)%Q).
  { pose proof (tick_limit_le tz plan resetHour limit data now) as Hle.
    unfold tick in *.
    destruct data as [[[bs|]]|]; cbn [blocks snd fst] in *;
      try discriminate.
    destruct (findActiveBlock bs) as [active|]; cbn [snd fst] in *;
      [|discriminate].
    injection Hshown as <-.
    cbn [d_tokenLimit d_usagePercentage d_tokensUsed].
    split; [lia|]. rewrite Z.gtb_ltb.
    destruct (Z.ltb_spec 0
                (upgradeLimit plan limit (or0 (totalTokens active)) bs));
      [reflexivity | lia]. }
  destruct Hd as [Hpos Hpct].
  unfold passCompactProgressBar, passTokenProgressBar.
  cbn [String.eqb Ascii.eqb Bool.eqb].
  rewrite createCompactProgressBar_throws, !createTokenProgressBar_throws.
  rewrite Hpct.
  rewrite (usage_out_of_range 20), (usage_out_of_range 50),
          (usage_out_of_range 15) by lia.
  repeat split; intros; lia.
Qed.

(** Plan [max5], 40000 tokens in the active block: the limit stays
    35000 and the bar of 20 cells would need 22. *)
Lemma pass_progress_bar_throws_witness :
  let data :=
    Some (mkData (Some [mkBlock (Some 0) None 40000 None (Some true)])) in
  exists d,
    snd (tick 0 "max5" None 35000 data 600000) = Shown d
    /\ d_tokenLimit d = 35000
    /\ passCompactProgressBar d = ThrowsRangeError.
Proof.
  intros data. eexists. split; [reflexivity|]. split; [reflexivity|].
  apply (proj1 (pass_progress_bar_throws 0 "max5" None 35000 data 600000
                  _ ltac:(lia) eq_refl)).
  right. vm_compute. discriminate.
Defined.

(** ** The time bar *)

(** The percentage that [createTimeProgressBar] draws. *)
Lemma timePercentage_cases (elapsed total : Q) :
  let percentage :=
    if Qle_bool total 0 then 0%Q
    else Math_min 100 (elapsed / total * 100)%Q in
  ((0 < total)%Q /\ (elapsed < 0)%Q /\ (percentage < 0)%Q)
  \/ ((total <= 0)%Q /\ percentage = 0%Q)
  \/ ((0 < total)%Q /\ (0 <= elapsed)%Q /\ (elapsed < total)%Q
      /\ (0 <= percentage)%Q /\ (percentage < 100)%Q)
  \/ ((0 < total)%Q /\ (total <= elapsed)%Q /\ percentage = 100%Q).
Proof.
  cbv zeta. destruct (Qle_bool total 0) eqn:Ht.
  - right. left. apply Qle_bool_iff in Ht. now split.
  - assert (Hpos : (0 < total)%Q).
    { apply Qnot_le_lt. intros H. apply Qle_bool_iff in H. congruence. }
    unfold Math_min.
    assert (Hratio : forall b : Q,
               (b <= elapsed / total * 100)%Q
               <-> (b * total <= elapsed * 100)%Q).
    { intros b. destruct elapsed as [ne de], total as [nt dt], b as [nb db].
      unfold Qlt in Hpos. cbn in Hpos.
      destruct nt as [|pt|pt]; try lia.
      unfold Qle, Qdiv, Qmult, Qinv. cbn. rewrite ?Pos2Z.inj_mul. nia. }
    destruct (Qle_bool 100 (elapsed / total * 100)) eqn:Hfull.
    + right. right. right. apply Qle_bool_iff in Hfull. apply Hratio in Hfull.
      split; [exact Hpos|]. split; [|reflexivity].
      apply Qmult_le_r with (z := 100%Q); [reflexivity|].
      now rewrite (Qmult_comm total).
    + assert (Hlt : ~ (100 <= elapsed / total * 100)%Q).
      { intros H. apply Qle_bool_iff in H. congruence. }
      destruct (Qlt_le_dec elapsed 0) as [Hneg|Hnonneg].
      * left. split; [exact Hpos|]. split; [exact Hneg|].
        apply Qnot_le_lt. intros H. apply Hratio in H.
        rewrite Qmult_0_l in H.
        apply (Qlt_not_le _ _ Hneg).
        apply Qmult_le_r with (z := 100%Q); [reflexivity|].
        now rewrite Qmult_0_l.
      * right. right. left. split; [exact Hpos|]. split; [exact Hnonneg|].
        split; [|split].
        -- apply Qnot_le_lt. intros H. apply Hlt. apply Hratio.
           rewrite (Qmult_comm 100). now apply Qmult_le_r.
        -- apply Hratio. rewrite Qmult_0_l.
           apply Qmult_le_0_compat; [exact Hnonneg | discriminate].
        -- now apply Qnot_le_lt.
Qed.

Lemma createTimeProgressBar_throws (elapsed total : Q) (width : Z) :
  let percentage :=
    if Qle_bool total 0 then 0%Q
    else Math_min 100 (elapsed / total * 100)%Q in
  createTimeProgressBar elapsed total width = ThrowsRangeError
  <-> ((inject_Z width * percentage < 0)%Q
       \/ (100 * (inject_Z width + 1) <= inject_Z width * percentage)%Q).
Proof.
  intros percentage. rewrite <- filled_out_of_range. cbv zeta.
  unfold createTimeProgressBar. cbv zeta. fold percentage.
  set (filled := Qfloor (inject_Z width * percentage / 100)).
  pose proof (String_repeat_throws "█" filled) as Hg.
  pose proof (String_repeat_throws "░" (width - filled)) as Hr.
  destruct (String_repeat "█" filled),
           (String_repeat "░" (width - filled));
    split; intros H; try discriminate; try reflexivity; try tauto.
  all: destruct H as [H|H]; [apply Hg in H|apply Hr in H]; discriminate.
Qed.

Lemma area_out_of_range (width : Z) (percentage : Q) :
  0 <= width ->
  ((inject_Z width * percentage < 0)%Q
   \/ (100 * (inject_Z width + 1) <= inject_Z width * percentage)%Q)
  <-> (0 < width /\ ((percentage < 0)%Q
                     \/ (100 * (inject_Z width + 1)
                         <= inject_Z width * percentage)%Q)).
Proof.
  intros Hw. destruct percentage as [n d].
  unfold Qlt, Qle, Qmult, Qplus, inject_Z. cbn.
  rewrite ?Z.mul_1_r, ?Pos.mul_1_r.
  assert (Hd : 0 < Z.pos d) by lia.
  destruct (Z.eq_dec width 0) as [->|Hne]; [lia|].
  assert (Hpos : 0 < width) by lia.
  split.
  - intros [H|H]; (split; [exact Hpos|]); [left; nia | right; exact H].
  - intros [_ [H|H]]; [left; nia | right; exact H].
Qed.

Lemma Qfloor_zero (x : Q) : (x == 0)%Q -> Qfloor x = 0.
Proof.
  intros Hx. 
  assert (H1 : 0 <= Qfloor x)
    by (apply Qfloor_ge_iff; rewrite Hx; apply Qle_refl).
  assert (H2 : Qfloor x < 1) by (apply Qfloor_lt_iff; rewrite Hx; reflexivity).
  lia.
Qed.

Lemma formatTime_nothing_left (x : Q) :
  (x <= 0)%Q -> formatTime (Math_max 0 x) = "0m"%string.
Proof.
  intros Hx. unfold Math_max.
  destruct (Qle_bool 0 x) eqn:H0; [|reflexivity].
  apply Qle_bool_iff in H0.
  assert (Hz : (x == 0)%Q) by (apply Qle_antisym; assumption).
  unfold formatTime.
  assert (Hlt : Qltb x 60 = true) by (apply Qltb_lt; rewrite Hz; reflexivity).
  rewrite Hlt, (Qfloor_zero x Hz). reflexivity.
Qed.

(** X7.  [createTimeProgressBar] caps its percentage at 100, so unlike
    the token bars it never throws for too much elapsed time: for a
    width of at least 0 it throws exactly when the width and the total
    are positive and the elapsed time is negative.  Once the elapsed time
    reaches the total the bar is full and the remaining time reads
    [0m]. *)
Theorem createTimeProgressBar_range (elapsed total : Q) (width : Z) :
  0 <= width ->
  (createTimeProgressBar elapsed total width = ThrowsRangeError
   <-> 0 < width /\ (0 < total)%Q /\ (elapsed < 0)%Q)
  /\ ((0 < total)%Q -> (total <= elapsed)%Q ->
      createTimeProgressBar elapsed total width
      = Returns ("⏰ [" ++ sgr "94" ++ repeatString "█" (Z.to_nat width)
                 ++ sgr "91" ++ sgr "0" ++ "] 0m")%string).
Proof.
  intros Hw. split.
  - rewrite createTimeProgressBar_throws, area_out_of_range by exact Hw.
    destruct (timePercentage_cases elapsed total)
      as [(Ht & He & Hp)
         |[(Ht & ->)
          |[(Ht & He & He' & Hp & Hp')
           |(Ht & He & ->)]]].
    + tauto.
    + split; [|intros (_ & Hpos & _); exfalso; eapply Qlt_not_le; eassumption].
      intros (_ & [H|H]); exfalso; revert H;
        unfold Qlt, Qle, Qmult, Qplus, inject_Z; cbn; lia.
    + split; [|intros (_ & _ & Hneg); exfalso; eapply Qlt_not_le; eassumption].
      intros (_ & [H|H]); exfalso.
      * eapply Qlt_not_le; eassumption.
      * revert H Hp Hp'.
        destruct (if Qle_bool total 0 then 0%Q
                  else Math_min 100 (elapsed / total * 100)) as [n d].
        unfold Qlt, Qle, Qmult, Qplus, inject_Z; cbn; nia.
    + split; [|intros (_ & Hpos & Hneg); exfalso;
                apply (Qlt_not_le _ _ Hneg);
                apply Qle_trans with total; [apply Qlt_le_weak|]; assumption].
      intros (_ & [H|H]); exfalso; revert H;
        unfold Qlt, Qle, Qmult, Qplus, inject_Z; cbn; lia.
  - intros Ht He. unfold createTimeProgressBar. cbv zeta.
    destruct (timePercentage_cases elapsed total)
      as [(_ & Hneg & _)|[(Ht' & _)|[(_ & _ & He' & _)|(_ & _ & Hp)]]].
    + exfalso. apply (Qlt_not_le _ _ Hneg).
      apply Qle_trans with total; [apply Qlt_le_weak|]; assumption.
    + exfalso. eapply Qlt_not_le; eassumption.
    + exfalso. eapply Qlt_not_le; eassumption.
    + cbv zeta in Hp. rewrite Hp.
      assert (Hfilled : Qfloor (inject_Z width * 100 / 100) = width).
      { assert (Heq : (inject_Z width * 100 / 100 == inject_Z width)%Q)
          by (field).
        rewrite Heq. apply Qfloor_Z. }
      rewrite Hfilled, Z.sub_diag. unfold String_repeat.
      destruct (Z.ltb_spec width 0); [lia|]. cbn [Z.ltb Z.to_nat repeatString].
      rewrite formatTime_nothing_left; [reflexivity|].
      unfold Qminus. rewrite <- (Qplus_opp_r elapsed).
      apply Qplus_le_compat; [exact He | apply Qle_refl].
Qed.

(** 310 of 300 minutes elapsed, 15 cells: a full bar and [0m]. *)
Lemma createTimeProgressBar_range_witness :
  createTimeProgressBar 310 300 15
  = Returns ("⏰ [" ++ sgr "94" ++ repeatString "█" 15
             ++ sgr "91" ++ sgr "0" ++ "] 0m")%string.
Proof.
  apply (proj2 (createTimeProgressBar_range 310 300 15 ltac:(lia)));
    [reflexivity | discriminate].
Defined.

(** ** The graph of the burn rates *)

Lemma append_nil_r (s : string) : (s ++ "")%string = s.
Proof.
  induction s as [|c s IH]; [reflexivity|].
  change (String c (s ++ "")%string = String c s). now f_equal.
Qed.

Lemma append_assoc (a b c : string) :
  ((a ++ b) ++ c)%string = (a ++ (b ++ c))%string.
Proof.
  induction a as [|x a IH]; [reflexivity|].
  change (String x ((a ++ b) ++ c)%string = String x (a ++ (b ++ c))%string).
  now f_equal.
Qed.

Lemma skipn_nth_cons {A : Type} (i : nat) (l : list A) (d : A) :
  (i < length l)%nat -> skipn i l = nth i l d :: skipn (S i) l.
Proof.
  revert l. induction i as [|i IH]; intros [|x l] Hlen; cbn in *; try lia.
  - reflexivity.
  - apply IH. lia.
Qed.

Lemma graphLoop_cells (history : list Q) (steps i : nat) (graph : string) :
  (i + steps <= length history)%nat ->
  graphLoop history i steps graph
  = (graph
     ++ joinCells (map graphCell (firstn steps (skipn i history))))%string.
Proof.
  revert i graph. induction steps as [|steps IH]; intros i graph Hlen;
    cbn [graphLoop firstn map joinCells fold_right].
  - now rewrite append_nil_r.
  - rewrite IH by lia.
    rewrite (skipn_nth_cons i history 0%Q) by lia.
    cbn [firstn map joinCells fold_right]. now rewrite append_assoc.
Qed.

(** X8.  For a width of at least 0, [createMiniGraph] returns exactly
    [width] cells: the cells of the latest [width] samples of the
    history, oldest first, with spaces in front when the history is
    shorter than the width.  Older samples are not drawn. *)
Theorem createMiniGraph_cells (history : list Q) (width : Z) :
  0 <= width ->
  let shown := Nat.min (length history) (Z.to_nat width) in
  createMiniGraph history width
  = Returns (repeatString " " (Z.to_nat width - shown)
             ++ joinCells (map graphCell (lastN shown history)))%string.
Proof.
  intros Hw shown. unfold createMiniGraph.
  destruct (Z.eqb_spec (Z.of_nat (length history)) 0) as [Hempty|Hsome].
  - destruct history; [|cbn in Hempty; lia].
    subst shown. cbn [length Nat.min lastN skipn map joinCells fold_right].
    unfold String_repeat. destruct (Z.ltb_spec width 0); [lia|].
    now rewrite Nat.sub_0_r, append_nil_r.
  - cbv zeta.
    set (len := length history) in *.
    set (startIndex := Z.max 0 (Z.of_nat len - width)).
    assert (Hstart : Z.to_nat startIndex = (len - shown)%nat)
      by (subst startIndex shown; lia).
    rewrite Hstart, graphLoop_cells by (fold len; lia).
    cbn [String.append].
    replace (len - (len - shown))%nat with shown by (subst shown; lia).
    assert (Hfirst : firstn shown (skipn (len - shown) history)
                     = lastN shown history).
    { unfold lastN. fold len. apply firstn_all2.
      rewrite length_skipn. fold len. lia. }
    rewrite Hfirst.
    assert (Hrem : width - (Z.of_nat len - startIndex)
                   = Z.of_nat (Z.to_nat width - shown))
      by (subst startIndex shown; lia).
    rewrite Hrem, Z.gtb_ltb.
    destruct (Z.ltb_spec 0 (Z.of_nat (Z.to_nat width - shown)))
      as [Hpad|Hnopad].
    + unfold String_repeat.
      destruct (Z.ltb_spec (Z.of_nat (Z.to_nat width - shown)) 0); [lia|].
      now rewrite Nat2Z.id.
    + replace (Z.to_nat width - shown)%nat with 0%nat by lia. reflexivity.
Qed.

(** Three samples in a graph of two cells: the first is dropped. *)
Lemma createMiniGraph_cells_witness :
  createMiniGraph [10%Q; 150%Q; 500%Q] 2
  = Returns (graphCell 150 ++ graphCell 500)%string.
Proof.
  rewrite (createMiniGraph_cells [10%Q; 150%Q; 500%Q] 2 ltac:(lia)).
  reflexivity.
Defined.

Lemma Math_min_cases (a b : Q) :
  ((a <= b)%Q /\ Math_min a b = a) \/ ((b < a)%Q /\ Math_min a b = b).
Proof.
  unfold Math_min. destruct (Qle_bool a b) eqn:H.
  - left. apply Qle_bool_iff in H. now split.
  - right. split; [|reflexivity]. apply Qnot_le_lt. intros Hle.
    apply Qle_bool_iff in Hle. congruence.
Qed.

Lemma barAt_in_range (k : Z) : 0 <= k <= 7 -> In (barAt k) bars.
Proof.
  intros Hk. unfold barAt. destruct (Z.ltb_spec k 0); [lia|].
  apply nth_In. cbn [bars length]. lia.
Qed.

(** X9.  A cell of the graph: a rate of at least 0 is drawn as one of
    the eight bar characters in one of the three colours; a rate of 400
    or more is the full bar in red; a negative rate would be drawn as
    the text [undefined], the array having no element at a negative
    index. *)
Theorem graphCell_bar (rate : Q) :
  ((0 <= rate)%Q ->
   exists color bar,
     In color [sgr "91"; sgr "93"; sgr "92"] /\ In bar bars
     /\ graphCell rate = (color ++ bar ++ sgr "0")%string)
  /\ ((400 <= rate)%Q ->
      graphCell rate = (sgr "91" ++ "█" ++ sgr "0")%string)
  /\ ((rate < 0)%Q ->
      graphCell rate = (sgr "92" ++ "undefined" ++ sgr "0")%string).
Proof.
  assert (Hscale : forall z : Z,
             (inject_Z z <= rate / 400 * (8 - 1))%Q
             <-> (inject_Z z * 400 <= rate * 7)%Q).
  { intros z. destruct rate as [n d].
    unfold Qle, Qdiv, Qmult, Qminus, Qplus, Qopp, Qinv, inject_Z. cbn.
    rewrite ?Pos2Z.inj_mul. lia. }
  split; [|split].
  - intros Hrate. unfold graphCell. cbv zeta.
    eexists _, _. split; [|split; [|reflexivity]].
    + destruct (Qltb 200 rate); [now left|].
      destruct (Qltb 100 rate); [right; now left | right; right; now left].
    + apply barAt_in_range.
      destruct (Math_min_cases (rate / 400) 1) as [[Hle ->]|[Hlt ->]].
      * split.
        -- apply Qfloor_ge_iff, Hscale. rewrite Qmult_0_l.
           apply Qmult_le_0_compat; [exact Hrate | discriminate].
        -- apply Z.lt_succ_r, Qfloor_lt_iff. apply Qnot_le_lt.
           intros H8. apply Hscale in H8.
           assert (H400 : (rate <= 400)%Q).
           { revert Hle. destruct rate as [n d].
             unfold Qle, Qdiv, Qmult, Qinv. cbn.
             rewrite ?Pos2Z.inj_mul. lia. }
           revert H8 H400. destruct rate as [n d].
           unfold Qle, Qmult, inject_Z. cbn. lia.
      * vm_compute. split; discriminate.
  - intros Hrate. unfold graphCell. cbv zeta.
    assert (H200 : Qltb 200 rate = true).
    { apply Qltb_lt. apply Qlt_le_trans with 400%Q; [reflexivity|exact Hrate]. }
    rewrite H200.
    assert (Hmin : Qfloor (Math_min (rate / 400) 1 * (8 - 1)) = 7).
    { destruct (Math_min_cases (rate / 400) 1) as [[Hle ->]|[Hlt ->]];
        [|reflexivity].
      assert (H1 : 7 <= Qfloor (rate / 400 * (8 - 1))).
      { apply Qfloor_ge_iff, Hscale. revert Hrate. destruct rate as [n d].
        unfold Qle, Qmult, inject_Z. cbn. lia. }
      assert (H2 : Qfloor (rate / 400 * (8 - 1)) < 8).
      { apply Qfloor_lt_iff. apply Qnot_le_lt. intros H8. apply Hscale in H8.
        revert H8 Hle. destruct rate as [n d].
        unfold Qle, Qdiv, Qmult, Qinv, inject_Z. cbn.
        rewrite ?Pos2Z.inj_mul. lia. }
      lia. }
    rewrite Hmin. reflexivity.
  - intros Hrate. unfold graphCell. cbv zeta.
    assert (H200 : Qltb 200 rate = false).
    { apply Qltb_ge. apply Qlt_le_weak, Qlt_trans with 0%Q;
        [exact Hrate | reflexivity]. }
    assert (H100 : Qltb 100 rate = false).
    { apply Qltb_ge. apply Qlt_le_weak, Qlt_trans with 0%Q;
        [exact Hrate | reflexivity]. }
    rewrite H200, H100.
    assert (Hneg : Qfloor (Math_min (rate / 400) 1 * (8 - 1)) < 0).
    { destruct (Math_min_cases (rate / 400) 1) as [[Hle ->]|[Hlt _]].
      - apply Qfloor_lt_iff. apply Qnot_le_lt. intros H0. apply Hscale in H0.
        revert H0 Hrate. destruct rate as [n d].
        unfold Qle, Qlt, Qmult, inject_Z. cbn. lia.
      - exfalso. revert Hlt Hrate. destruct rate as [n d].
        unfold Qlt, Qdiv, Qmult, Qinv. cbn. rewrite ?Pos2Z.inj_mul. lia. }
    unfold barAt. apply Z.ltb_lt in Hneg. rewrite Hneg. reflexivity.
Qed.

(** ** formatTime *)

Lemma Qfloor_unique (x : Q) (z : Z) :
  (inject_Z z <= x)%Q -> (x < inject_Z (z + 1))%Q -> Qfloor x = z.
Proof.
  intros Hle Hlt. apply Qfloor_ge_iff in Hle. apply Qfloor_lt_iff in Hlt. lia.
Qed.

Lemma Qfloor_div60 (x : Q) : Qfloor (x / 60) = Qfloor x / 60.
Proof.
  destruct x as [n d]. unfold Qdiv, Qmult, Qinv, Qfloor. cbn.
  rewrite Z.mul_1_r, Pos2Z.inj_mul. symmetry. apply Z.div_div; lia.
Qed.

Lemma Qfloor_minus_Z (x : Q) (k : Z) :
  Qfloor (x - inject_Z k) = Qfloor x - k.
Proof.
  apply Qfloor_unique.
  - unfold Z.sub. rewrite inject_Z_plus, inject_Z_opp. unfold Qminus.
    apply Qplus_le_compat; [apply Qfloor_le | apply Qle_refl].
  - replace (Qfloor x - k + 1) with ((Qfloor x + 1) + - k) by lia.
    rewrite inject_Z_plus, inject_Z_opp. unfold Qminus.
    apply Qplus_lt_le_compat; [apply Qlt_floor | apply Qle_refl].
Qed.

Lemma Qrem60_floor (x : Q) :
  (60 <= x)%Q -> Qfloor (Qrem x 60) = Qfloor x mod 60.
Proof.
  intros Hx. unfold Qrem.
  assert (Hq : Z.quot (Qnum (x / 60)) (Z.pos (Qden (x / 60))) = Qfloor x / 60).
  { rewrite <- Qfloor_div60. unfold Qfloor. destruct (x / 60)%Q as [n d] eqn:E.
    cbn [Qnum Qden]. apply Z.quot_div_nonneg; [|lia].
    assert (H0 : (0 <= x / 60)%Q).
    { apply Qle_shift_div_l; [reflexivity|]. rewrite Qmult_0_l.
      apply Qle_trans with 60%Q; [discriminate | exact Hx]. }
    rewrite E in H0. unfold Qle in H0. cbn in H0. lia. }
  rewrite Hq.
  assert (Heq : (x - 60 * inject_Z (Qfloor x / 60)
                 == x - inject_Z (60 * (Qfloor x / 60)))%Q).
  { rewrite inject_Z_mult. reflexivity. }
  rewrite Heq, Qfloor_minus_Z. rewrite Z.mod_eq by lia. reflexivity.
Qed.

(** X10.  [formatTime] shows the whole minutes of its argument and
    nothing else: below 60 the minutes; from 60 on the quotient and the
    remainder of the whole minutes by 60 as hours and minutes, the
    minutes being left out when the remainder is zero. *)
Theorem formatTime_whole_minutes (minutes : Q) :
  formatTime minutes = formatWholeMinutes (Qfloor minutes)
  /\ (forall h m, 1 <= h -> 0 <= m < 60 -> Qfloor minutes = 60 * h + m ->
        formatTime minutes
        = if m =? 0 then (numberToString h ++ "h")%string
          else (numberToString h ++ "h " ++ numberToString m ++ "m")%string)
  /\ (Qfloor minutes < 60 ->
      formatTime minutes = (numberToString (Qfloor minutes) ++ "m")%string).
Proof.
  assert (Hmain : formatTime minutes = formatWholeMinutes (Qfloor minutes)).
  { unfold formatTime, formatWholeMinutes.
    destruct (Qltb minutes 60) eqn:Hlt.
    - apply Qltb_lt in Hlt. apply (Qfloor_lt_iff 60) in Hlt.
      apply Z.ltb_lt in Hlt. now rewrite Hlt.
    - apply Qltb_ge in Hlt. pose proof Hlt as Hge.
      apply (Qfloor_ge_iff 60) in Hge.
      destruct (Z.ltb_spec (Qfloor minutes) 60); [lia|].
      cbv zeta. now rewrite Qfloor_div60, Qrem60_floor. }
  split; [exact Hmain|]. split.
  - intros h m Hh Hm Hfloor. rewrite Hmain, Hfloor. unfold formatWholeMinutes.
    destruct (Z.ltb_spec (60 * h + m) 60); [lia|].
    replace ((60 * h + m) mod 60) with m
      by (Z.to_euclidean_division_equations; lia).
    replace ((60 * h + m) / 60) with h
      by (Z.to_euclidean_division_equations; lia).
    reflexivity.
  - intros Hlt. rewrite Hmain. unfold formatWholeMinutes.
    apply Z.ltb_lt in Hlt. now rewrite Hlt.
Qed.

(** 119.9 minutes are shown as one hour and 59 minutes. *)
Lemma formatTime_whole_minutes_witness :
  formatTime (1199 # 10) = "1h 59m"%string.
Proof.
  apply (proj1 (proj2 (formatTime_whole_minutes (1199 # 10))) 1 59);
    [lia | lia | reflexivity].
Defined.

(** ** How much the burn rate can be *)

Lemma inject_Z_pos (z : Z) : 0 < z -> (0 < inject_Z z)%Q.
Proof.
  intros H. change (inject_Z 0 < inject_Z z)%Q. now rewrite <- Zlt_Qlt.
Qed.

Lemma inject_Z_nonneg (z : Z) : 0 <= z -> (0 <= inject_Z z)%Q.
Proof.
  intros H. change (inject_Z 0 <= inject_Z z)%Q. now rewrite <- Zle_Qle.
Qed.

Lemma inject_Z_nonzero (z : Z) : 0 < z -> ~ (inject_Z z == 0)%Q.
Proof.
  intros Hz H. apply (Qlt_not_eq 0 (inject_Z z)); [|now symmetry].
  now apply inject_Z_pos.
Qed.

Lemma minutes_ratio (w d : Z) :
  0 < d ->
  (inject_Z w / 60000 / (inject_Z d / 60000) == inject_Z w / inject_Z d)%Q.
Proof. intros Hd. field. now apply inject_Z_nonzero. Qed.

Lemma share_bounds (t w d : Z) :
  0 <= t -> 0 < w <= d ->
  (0 <= inject_Z t * (inject_Z w / 60000 / (inject_Z d / 60000)))%Q
  /\ (inject_Z t * (inject_Z w / 60000 / (inject_Z d / 60000))
      <= inject_Z t)%Q.
Proof.
  intros Ht Hw. rewrite minutes_ratio by lia.
  assert (Hd : (0 < inject_Z d)%Q) by (apply inject_Z_pos; lia).
  assert (Ht' : (0 <= inject_Z t)%Q) by (now apply inject_Z_nonneg).
  assert (H0 : (0 <= inject_Z w / inject_Z d)%Q).
  { apply Qle_shift_div_l; [exact Hd|]. rewrite Qmult_0_l.
    apply inject_Z_nonneg. lia. }
  assert (H1 : (inject_Z w / inject_Z d <= 1)%Q).
  { apply Qle_shift_div_r; [exact Hd|]. rewrite Qmult_1_l.
    rewrite <- Zle_Qle. lia. }
  split.
  - now apply Qmult_le_0_compat.
  - rewrite <- (Qmult_1_r (inject_Z t)) at 2.
    rewrite !(Qmult_comm (inject_Z t)).
    now apply Qmult_le_compat_r.
Qed.

Lemma share_whole (t d : Z) :
  0 < d ->
  (inject_Z t * (inject_Z d / 60000 / (inject_Z d / 60000)) == inject_Z t)%Q.
Proof.
  intros Hd. rewrite minutes_ratio by lia. field.
  now apply inject_Z_nonzero.
Qed.

Lemma contribution_bounds (now : Z) (b : Block) :
  0 <= totalTokens b ->
  (0 <= contribution now b)%Q
  /\ (contribution now b <= inject_Z (totalTokens b))%Q.
Proof.
  intros Ht. unfold contribution, windowMinutes, durationMinutes.
  destruct (startTime b) as [s|].
  - rewrite !Qltb_minutes.
    set (e := effectiveEnd now b).
    destruct (Z.ltb_spec 0 (Z.min e now - Z.max s (now - 3600000)));
      cbn [andb]; [|split; [apply Qle_refl | now apply inject_Z_nonneg]].
    destruct (Z.ltb_spec 0 (e - s));
      [|split; [apply Qle_refl | now apply inject_Z_nonneg]].
    apply share_bounds; lia.
  - cbn [Qltb Qle_bool Qnum Qden Z.leb Z.mul Z.compare negb andb].
    split; [apply Qle_refl | now apply inject_Z_nonneg].
Qed.

Lemma Qsum_contributions_le (now : Z) (bs : list Block) :
  Forall (fun b => 0 <= totalTokens b) bs ->
  (0 <= Qsum (map (contribution now) bs))%Q
  /\ (Qsum (map (contribution now) bs)
      <= inject_Z (fold_right Z.add 0%Z (map totalTokens bs)))%Q.
Proof.
  induction 1 as [|b bs Hb _ [IH0 IH]]; cbn [map Qsum fold_right].
  - split; apply Qle_refl.
  - fold (Qsum (map (contribution now) bs)).
    destruct (contribution_bounds now b Hb) as [H0 H1].
    split.
    + apply Qle_trans with (0 + 0)%Q; [apply Qle_refl|].
      now apply Qplus_le_compat.
    + rewrite inject_Z_plus. now apply Qplus_le_compat.
Qed.

(** X11.  With token counts that are not negative, the total that the
    loop of [calculateHourlyBurnRate] has added up when it ends
    ([totalTokensInHour]) is not negative and never more than the tokens
    recorded in the blocks that take part: a block counts with a share
    of its tokens between none and all of them. *)
Theorem hourly_total_at_most_recorded (bs : list Block) (now : Z) :
  Forall (fun b => 0 <= totalTokens b) bs ->
  (0 <= fold_left (burnStep now) bs 0)%Q
  /\ (fold_left (burnStep now) bs 0
      <= inject_Z (qualifyingTokens now bs))%Q.
Proof.
  intros Hnonneg.
  assert (Hq : Forall (fun b => 0 <= totalTokens b)
                 (List.filter (qualifies now) bs)).
  { rewrite List.Forall_forall in *. intros b Hb.
    apply filter_In in Hb. apply Hnonneg, (proj1 Hb). }
  destruct (Qsum_contributions_le now _ Hq) as [Hsum0 Hsum].
  fold (qualifyingTokens now bs) in Hsum.
  assert (Hfold : (fold_left (burnStep now) bs 0
                   == Qsum (map (contribution now)
                              (List.filter (qualifies now) bs)))%Q).
  { rewrite fold_burnStep_sum. ring. }
  rewrite Hfold. split; assumption.
Qed.

(** A block of 1200 tokens half inside the window and an active block of
    600 tokens: 1200 tokens in the hour, of 1800 recorded. *)
Lemma hourly_total_at_most_recorded_witness :
  let bs := [mkBlock (Some 1800000) (Some 5400000) 1200 None None;
             mkBlock (Some 5400000) None 600 None (Some true)] in
  Qeq (fold_left (burnStep 7200000) bs 0%Q) (inject_Z 1200)
  /\ qualifyingTokens 7200000 bs = 1800
  /\ Qle (fold_left (burnStep 7200000) bs 0%Q)
         (inject_Z (qualifyingTokens 7200000 bs)).
Proof.
  intros bs. split; [vm_compute; reflexivity|].
  split; [vm_compute; reflexivity|].
  apply (hourly_total_at_most_recorded bs 7200000).
  repeat constructor; cbn; lia.
Defined.

(** X12.  A block that is not a gap and whose time from start to
    effective end lies inside the last hour counts with all of its
    tokens, however short it is; so a snapshot that holds only an active
    block begun less than an hour ago has the burn rate
    [totalTokens / 60], the tokens spread over the full hour and not
    over the time the block has run. *)
Theorem block_inside_window_counts_fully (now : Z) (b : Block) (s : Z) :
  startTime b = Some s ->
  truthy (isGap b) = false ->
  now - 3600000 <= s ->
  s < effectiveEnd now b <= now ->
  (forall acc,
     (burnStep now acc b == acc + inject_Z (totalTokens b))%Q)
  /\ (0 < totalTokens b ->
      (calculateHourlyBurnRate (Some [b]) now
       == inject_Z (totalTokens b) / 60)%Q).
Proof.
  intros Hs Hgap Hstart Hend.
  assert (Hstep : forall acc,
             (burnStep now acc b == acc + inject_Z (totalTokens b))%Q).
  { intros acc. rewrite burnStep_contribution.
    unfold qualifies, contribution, windowMinutes, durationMinutes.
    rewrite Hs, Hgap. cbn [negb andb].
    set (e := effectiveEnd now b) in *.
    destruct (Z.ltb_spec e (now - 3600000)); [lia|]. cbn [negb].
    rewrite !Qltb_minutes.
    replace (Z.min e now - Z.max s (now - 3600000)) with (e - s) by lia.
    destruct (Z.ltb_spec 0 (e - s)); [|lia]. cbn [andb].
    rewrite share_whole by lia. reflexivity. }
  split; [exact Hstep|].
  intros Hpos. unfold calculateHourlyBurnRate. cbn [fold_left].
  assert (Htotal : (burnStep now 0 b == inject_Z (totalTokens b))%Q).
  { rewrite Hstep. ring. }
  assert (Hlt : Qltb 0 (burnStep now 0 b) = true).
  { apply Qltb_lt. rewrite Htotal. now apply inject_Z_pos. }
  rewrite Hlt. now rewrite Htotal.
Qed.

(** 600 tokens in a session that began five minutes ago: 10 tokens a
    minute. *)
Lemma block_inside_window_counts_fully_witness :
  Qeq (calculateHourlyBurnRate
         (Some [mkBlock (Some 6900000) None 600 None (Some true)])
         7200000)
      (inject_Z 600 / 60)%Q.
Proof.
  apply (proj2 (block_inside_window_counts_fully 7200000
                  (mkBlock (Some 6900000) None 600 None (Some true))
                  6900000 eq_refl eq_refl ltac:(lia)
                  ltac:(vm_compute; split; [reflexivity | discriminate]))).
  reflexivity.
Defined.

(** ** What a pass predicts *)

Lemma quot_within_one (n : Z) (d : positive) :
  (inject_Z (Z.quot n (Z.pos d)) - 1 < n # d)%Q
  /\ (n # d < inject_Z (Z.quot n (Z.pos d)) + 1)%Q.
Proof.
  pose proof (Z.quot_rem' n (Z.pos d)) as Hqr.
  assert (Hrem : - Z.pos d < Z.rem n (Z.pos d) < Z.pos d).
  { pose proof (Z.rem_bound_abs n (Z.pos d) ltac:(lia)). lia. }
  unfold Qlt, Qminus, Qplus, Qopp, inject_Z. cbn -[Z.mul Z.quot].
  set (q := Z.quot n (Z.pos d)) in *. set (r := Z.rem n (Z.pos d)) in *.
  split; nia.
Qed.

Lemma newDate_cases (v : Q) :
  (newDate v = InvalidDate
   /\ ((8640000000000000 < v)%Q \/ (v < -8640000000000000)%Q))
  \/ (exists c, newDate v = TimeValue c
                /\ (inject_Z c - 1 < v)%Q /\ (v < inject_Z c + 1)%Q).
Proof.
  unfold newDate.
  destruct (Qltb 8640000000000000 v) eqn:Hhi.
  - left. split; [reflexivity|]. left. now apply Qltb_lt.
  - destruct (Qltb v (-8640000000000000)) eqn:Hlo; cbn [orb].
    + left. split; [reflexivity|]. right. now apply Qltb_lt.
    + right. eexists. split; [reflexivity|].
      destruct v as [n d]. cbn [Qnum Qden]. apply quot_within_one.
Qed.

Lemma predictedEndTime_cases
    (now : Z) (burnRate tokensLeft : Q) (resetTime : Z) :
  let v := depletionTime now burnRate tokensLeft in
  predictedEndTime now burnRate tokensLeft resetTime = TimeValue resetTime
  \/ (predictedEndTime now burnRate tokensLeft resetTime = InvalidDate
      /\ (0 < burnRate)%Q /\ (0 < tokensLeft)%Q
      /\ ((8640000000000000 < v)%Q \/ (v < -8640000000000000)%Q))
  \/ (exists c,
        predictedEndTime now burnRate tokensLeft resetTime = TimeValue c
        /\ now < c <= resetTime
        /\ (0 < burnRate)%Q /\ (0 < tokensLeft)%Q
        /\ (inject_Z c - 1 < v)%Q /\ (v < inject_Z c + 1)%Q).
Proof.
  intros v. unfold predictedEndTime.
  destruct (Qltb 0 burnRate) eqn:Hb; [|now left].
  destruct (Qltb 0 tokensLeft) eqn:Ht; [|now left].
  cbn [andb]. cbv zeta. fold (depletionTime now burnRate tokensLeft). fold v.
  apply Qltb_lt in Hb, Ht.
  destruct (newDate_cases v) as [[-> Hout]|(c & -> & Hlo & Hhi)];
    cbn [dateLe dateGt].
  - right. left. repeat split; assumption.
  - rewrite Z.gtb_ltb.
    destruct (Z.leb_spec c now); [now left|].
    destruct (Z.ltb_spec resetTime c); [now left|].
    right. right. exists c. repeat split; try assumption; lia.
Qed.

(** X13.  In every pass that shows something, the predicted end is one
    of three: the reset time; or an Invalid Date, which happens only with
    a positive burn rate, fewer tokens used than the limit allows and a
    depletion time at the end of the range of [Date] (within 16
    milliseconds of it) or beyond; or the depletion time
    ([now] plus tokens left over burn rate, in minutes) cut to a whole
    millisecond, which is then after [now] and not after the reset
    time. *)
Theorem pass_prediction_cases (tz : Z) (plan : string)
    (resetHour : option Z) (limit : Z) (data : option CcusageData)
    (now : Z) (d : Display) :
  snd (tick tz plan resetHour limit data now) = Shown d ->
  let v := depletionTime now (d_burnRate d) (inject_Z (d_tokensLeft d)) in
  d_predictedEndTime d = TimeValue (d_resetTime d)
  \/ (d_predictedEndTime d = InvalidDate
      /\ (0 < d_burnRate d)%Q /\ d_tokensUsed d < d_tokenLimit d
      /\ ((8639999999999984 < v)%Q \/ (v < -8639999999999984)%Q))
  \/ (exists c,
        d_predictedEndTime d = TimeValue c
        /\ now < c <= d_resetTime d
        /\ (0 < d_burnRate d)%Q /\ d_tokensUsed d < d_tokenLimit d
        /\ (inject_Z c - 1 < v)%Q /\ (v < inject_Z c + 1)%Q).
Proof.
  unfold tick.
  destruct data as [[[bs|]]|]; cbn [blocks snd]; try discriminate.
  destruct (findActiveBlock bs) as [active|]; cbn [snd]; [|discriminate].
  set (used := or0 (totalTokens active)).
  set (limit' := upgradeLimit plan limit used bs).
  set (rate := calculateHourlyBurnRate (Some bs) now).
  set (reset := getNextResetTime tz now None).
  intros [= <-].
  cbn [d_predictedEndTime d_resetTime d_burnRate d_tokensUsed d_tokenLimit
       d_tokensLeft].
  assert (Hleft : (0 < inject_Z (limit' - used))%Q -> used < limit').
  { intros H. change 0%Q with (inject_Z 0) in H.
    rewrite <- Zlt_Qlt in H. lia. }
  destruct (predictedEndTime_cases now rate (inject_Z (limit' - used)) reset)
    as [Hreset|[(Hinv & Hr & Hl & Hout)|(c & Hc & Hwin & Hr & Hl & Hlo & Hhi)]].
  - now left.
  - right. left. split; [exact Hinv|]. split; [exact Hr|].
    split; [auto|].
    destruct Hout as [Hout|Hout]; [left|right].
    + apply Qlt_trans with (2 := Hout). reflexivity.
    + apply Qlt_trans with (1 := Hout). reflexivity.
  - right. right. exists c. repeat split; auto; lia.
Qed.

(** Plan [max20] at 10:30 with 14000 tokens used in the last half hour:
    at 233 tokens a minute the 126000 left last 540 minutes, beyond the
    reset of 14:00, which is what the pass predicts.  With 139000 tokens
    used the 1000 left last 25 seconds, and that is the prediction. *)
Lemma pass_prediction_cases_witness :
  let now := atLocal 0 19000 10 30 0 0 in
  let data used :=
    Some (mkData (Some [mkBlock (Some (now - 1800000)) None used None
                                (Some true)])) in
  (exists d,
     snd (tick 0 "max20" None 140000 (data 14000) now) = Shown d
     /\ d_predictedEndTime d = TimeValue (atLocal 0 19000 14 0 0 0))
  /\ (exists d,
        snd (tick 0 "max20" None 140000 (data 139000) now) = Shown d
        /\ d_predictedEndTime d = TimeValue (now + 25899)).
Proof.
  intros now data. split.
  - eexists. split; [reflexivity|].
    destruct (pass_prediction_cases 0 "max20" None 140000 (data 14000) now
                _ eq_refl) as [H|[(H & _)|(c & H & _)]];
      vm_compute in H |- *; congruence.
  - eexists. split; [reflexivity|]. vm_compute. reflexivity.
Defined.
